(** * Feedback alignment: the custom forward/backward pair and the MLP

    A shallow embedding of [feedback_alignment.py].  The Python code is
    written against a tensor library; the part of that library the program
    touches (transpose, matrix product, broadcasting sum and product, relu,
    comparison with zero, reduction along the first axis, the three
    initialisers) is embedded here for tensors of rank 0, 1 and 2, which
    are the only ranks the network ever builds.

    - Scalar arithmetic is kept abstract behind the class [Scalar], so
      nothing proved below depends on algebraic laws that machine numbers
      do not have; sums are accumulated left to right from zero.
    - A computation that can raise returns a [result]; a Python exception is
      the name of its class.
    - A loop that can be left by an exception returns the locals it was left
      with, beside the exception, so that what had been computed by then can
      be stated.
    - Random draws and uninitialised storage are read through the class
      [Init], with the state of the generator passed along explicitly;
      [forward] and [backward] take no generator, as they draw nothing. *)

From stdpp Require Import base decidable option list strings.
From Stdlib Require Import ZArith Lia.
From Corelib Require PrimFloat.

Set Default Proof Using "Type".

(** ** Exceptions and fallible computations *)

(** A Python exception is identified by the name of its class. *)
Definition exn := string.
Definition IndexError : exn := "IndexError".
Definition RuntimeError : exn := "RuntimeError".
Definition ValueError : exn := "ValueError".

Inductive result (A : Type) : Type :=
| Ok (a : A)
| Raise (e : exn).
Arguments Ok {A} a.
Arguments Raise {A} e.

Definition bind {A B : Type} (m : result A) (k : A -> result B) : result B :=
  match m with
  | Ok a => k a
  | Raise e => Raise e
  end.

Notation "'let*' x ':=' m 'in' k" := (bind m (fun x => k))
  (at level 10, x name, m at level 100, k at level 200).

(** [l[i]] for a non-negative [i]: IndexError when out of range. *)
Definition getitem {A : Type} (l : list A) (i : nat) : result A :=
  match l !! i with
  | Some x => Ok x
  | None => Raise IndexError
  end.

(** [l[i] = v] for a non-negative [i]: IndexError when out of range. *)
Definition setitem {A : Type} (l : list A) (i : nat) (v : A) : result (list A) :=
  if decide (i < length l) then Ok (<[i := v]> l) else Raise IndexError.

(** [l[a:b]] for non-negative bounds: slicing never raises. *)
Definition slice {A : Type} (a b : nat) (l : list A) : list A :=
  take (b - a) (drop a l).

(** ** Scalars *)

Class Scalar (F : Type) : Type := {
  fzero : F;
  fone : F;
  fadd : F -> F -> F;
  fmul : F -> F -> F;
  frelu : F -> F;
  fgt0 : F -> bool
}.

(** Integer scalars, used to run the definitions on concrete inputs. *)
Global Instance Z_scalar : Scalar Z := {|
  fzero := 0%Z;
  fone := 1%Z;
  fadd := Z.add;
  fmul := Z.mul;
  frelu := fun x => Z.max 0 x;
  fgt0 := fun x => Z.ltb 0 x
|}.

(** Binary floating-point scalars.  The program's tensors hold 32-bit floats
    and these are 64-bit ones; the two formats treat zero, infinity and NaN
    alike, and that is all they are used for below.  This is no instance:
    it is named where it is meant. *)
Definition float_scalar : Scalar PrimFloat.float := {|
  fzero := PrimFloat.zero;
  fone := PrimFloat.one;
  fadd := PrimFloat.add;
  fmul := PrimFloat.mul;
  frelu := fun x => if PrimFloat.ltb x PrimFloat.zero then PrimFloat.zero else x;
  fgt0 := fun x => PrimFloat.ltb PrimFloat.zero x
|}.

(** ** Tensors of rank at most two *)

Inductive shape : Type :=
| Scalar0
| Vector (n : nat)
| Matrix (r c : nat).

Global Instance shape_eq_dec : EqDecision shape.
Proof. solve_decision. Defined.

Definition numel (s : shape) : nat :=
  match s with
  | Scalar0 => 1
  | Vector n => n
  | Matrix r c => r * c
  end.

Definition rank (s : shape) : nat :=
  match s with
  | Scalar0 => 0
  | Vector _ => 1
  | Matrix _ _ => 2
  end.

(** A shape read as rows and columns, the way broadcasting aligns it. *)
Definition rows (s : shape) : nat :=
  match s with
  | Matrix r _ => r
  | _ => 1
  end.

Definition cols (s : shape) : nat :=
  match s with
  | Scalar0 => 1
  | Vector n => n
  | Matrix _ c => c
  end.

Definition mkshape (rk r c : nat) : shape :=
  match rk with
  | 0 => Scalar0
  | 1 => Vector c
  | _ => Matrix r c
  end.

(** Row-major tables. *)
Definition tabulate {A : Type} (n : nat) (f : nat -> A) : list A :=
  map f (seq 0 n).

Definition tabulate2 {A : Type} (r c : nat) (f : nat -> nat -> A) : list A :=
  flat_map (fun i => tabulate c (f i)) (seq 0 r).

Module Torch.
Section Ops.
Context {F : Type} `{Scalar F}.

(** Contiguous row-major storage with its shape. *)
Record tensor : Type := mkTensor { tshape : shape; tdata : list F }.

Record btensor : Type := mkBTensor { bshape : shape; bdata : list bool }.

Definition wf (x : tensor) : Prop := length (tdata x) = numel (tshape x).

Definition item (x : tensor) (k : nat) : F := nth k (tdata x) fzero.

(** Sum of [f 0 * g 0], ..., [f (k-1) * g (k-1)], accumulated left to right. *)
Definition dot (k : nat) (f g : nat -> F) : F :=
  fold_left (fun acc p => fadd acc (fmul (f p) (g p))) (seq 0 k) fzero.

Definition total (k : nat) (f : nat -> F) : F :=
  fold_left (fun acc p => fadd acc (f p)) (seq 0 k) fzero.

(** [x.t()]: tensors of rank below two are returned as they are. *)
Definition t (x : tensor) : tensor :=
  match tshape x with
  | Matrix r c =>
      mkTensor (Matrix c r) (tabulate2 c r (fun j i => item x (i * c + j)))
  | _ => x
  end.

(** [a.matmul(b)] on ranks one and two; a rank-zero operand is refused. *)
Definition matmul (a b : tensor) : result tensor :=
  match tshape a, tshape b with
  | Matrix n k, Matrix k' m =>
      if decide (k = k') then
        Ok (mkTensor (Matrix n m)
              (tabulate2 n m (fun i j =>
                 dot k (fun p => item a (i * k + p)) (fun p => item b (p * m + j)))))
      else Raise RuntimeError
  | Vector k, Matrix k' m =>
      if decide (k = k') then
        Ok (mkTensor (Vector m)
              (tabulate m (fun j =>
                 dot k (fun p => item a p) (fun p => item b (p * m + j)))))
      else Raise RuntimeError
  | Matrix n k, Vector k' =>
      if decide (k = k') then
        Ok (mkTensor (Vector n)
              (tabulate n (fun i =>
                 dot k (fun p => item a (i * k + p)) (fun p => item b p))))
      else Raise RuntimeError
  | Vector k, Vector k' =>
      if decide (k = k') then
        Ok (mkTensor Scalar0 [dot k (fun p => item a p) (fun p => item b p)])
      else Raise RuntimeError
  | _, _ => Raise RuntimeError
  end.

(** Broadcasting of one dimension against another. *)
Definition bdim (x y : nat) : result nat :=
  if decide (x = y) then Ok x
  else if decide (x = 1) then Ok y
  else if decide (y = 1) then Ok x
  else Raise RuntimeError.

(** Entry of [x] seen from position [(i, j)] of the broadcast result. *)
Definition bitem (x : tensor) (i j : nat) : F :=
  let s := tshape x in
  item x ((if decide (rows s = 1) then 0 else i) * cols s
          + (if decide (cols s = 1) then 0 else j)).

Definition broadcast (op : F -> F -> F) (a b : tensor) : result tensor :=
  let* r := bdim (rows (tshape a)) (rows (tshape b)) in
  let* c := bdim (cols (tshape a)) (cols (tshape b)) in
  Ok (mkTensor (mkshape (rank (tshape a) `max` rank (tshape b)) r c)
        (tabulate2 r c (fun i j => op (bitem a i j) (bitem b i j)))).

(** [a + b] and [a * b]. *)
Definition add : tensor -> tensor -> result tensor := broadcast fadd.
Definition mul : tensor -> tensor -> result tensor := broadcast fmul.

(** [torch.relu(x)]. *)
Definition relu (x : tensor) : tensor :=
  mkTensor (tshape x) (map frelu (tdata x)).

(** [x > 0]. *)
Definition gt_zero (x : tensor) : btensor :=
  mkBTensor (tshape x) (map fgt0 (tdata x)).

(** [m.float()] of a boolean tensor. *)
Definition float (m : btensor) : tensor :=
  mkTensor (bshape m) (map (fun b : bool => if b then fone else fzero) (bdata m)).

(** [x.sum(0)]. *)
Definition sum0 (x : tensor) : tensor :=
  match tshape x with
  | Scalar0 => x
  | Vector n => mkTensor Scalar0 [total n (fun p => item x p)]
  | Matrix r c =>
      mkTensor (Vector c) (tabulate c (fun j => total r (fun i => item x (i * c + j))))
  end.

(** [x.contiguous()]: storage is always contiguous here. *)
Definition contiguous (x : tensor) : tensor := x.

End Ops.
Arguments tensor F : clear implicits.
End Torch.

Import Torch.

(** ** The custom autograd function *)

Module FeedbackAlignmentFunction.
Section Function.
Context {F : Type} `{Scalar F}.

(** What [forward] leaves on [ctx] for the paired [backward]. *)
Record ctx : Type := mkCtx {
  saved_tensors : list (tensor F);
  num_layers : nat
}.

(** The locals the loop of [forward] rebinds or appends to. *)
Record locals : Type := mkLocals {
  input : tensor F;
  z_values : list (tensor F);
  activations : list (tensor F)
}.

(** [z = input.matmul(weights[i].t()) + biases[i]] *)
Definition affine (weights biases : list (tensor F)) (i : nat) (x : tensor F)
  : result (tensor F) :=
  let* w := getitem weights i in
  let* m := matmul x (t w) in
  let* b := getitem biases i in
  add m b.

(** One iteration of the loop of [forward]. *)
Definition forward_body (weights biases : list (tensor F)) (i : nat) (st : locals)
  : result locals :=
  let* z := affine weights biases i (input st) in
  let input' := if decide (i < length weights - 1) then relu z else z in
  Ok {| input := input';
        z_values := z_values st ++ [z];
        activations := activations st ++ [input'] |}.

(** The loop of [forward]: the locals when the loop is left, and the
    exception that left it, if one did. *)
Fixpoint forward_loop (weights biases : list (tensor F)) (idxs : list nat) (st : locals)
  : locals * option exn :=
  match idxs with
  | [] => (st, None)
  | i :: rest =>
      match forward_body weights biases i st with
      | Ok st' => forward_loop weights biases rest st'
      | Raise e => (st, Some e)
      end
  end.

(** The frame of [forward] up to the end of its loop. *)
Definition forward_run (x : tensor F) (params : list (tensor F)) : locals * option exn :=
  let num_layers := length params / 3 in
  let weights := slice 0 num_layers params in
  let biases := slice num_layers (2 * num_layers) params in
  forward_loop weights biases (seq 0 (length weights))
    {| input := x; z_values := []; activations := [x] |}.

Definition forward (x : tensor F) (params : list (tensor F)) : result (ctx * tensor F) :=
  let num_layers := length params / 3 in
  let weights := slice 0 num_layers params in
  let biases := slice num_layers (2 * num_layers) params in
  let feedback_matrices := slice (2 * num_layers) (3 * num_layers) params in
  match forward_run x params with
  | (st, None) =>
      Ok ({| saved_tensors :=
               weights ++ biases ++ feedback_matrices ++ z_values st ++ activations st;
             num_layers := length weights |},
          input st)
  | (_, Some e) => Raise e
  end.

(** The locals the loop of [backward] rebinds or stores into. *)
Record grads : Type := mkGrads {
  delta : tensor F;
  grad_weights : list (option (tensor F));
  grad_biases : list (option (tensor F))
}.

(** [delta.matmul(feedback_matrices[i]) * (z_values[i-1] > 0).float()] *)
Definition propagate (feedback_matrices z_values : list (tensor F)) (i : nat)
  (d : tensor F) : result (tensor F) :=
  let* f := getitem feedback_matrices i in
  let* m := matmul d f in
  let* z := getitem z_values (i - 1) in
  mul m (float (gt_zero z)).

(** One iteration of the loop of [backward]. *)
Definition backward_body (feedback_matrices z_values activations : list (tensor F))
  (i : nat) (st : grads) : result grads :=
  let* a := getitem activations i in
  let* gw := matmul (t (delta st)) a in
  let* gws := setitem (grad_weights st) i (Some gw) in
  let* gbs := setitem (grad_biases st) i (Some (sum0 (delta st))) in
  let* d := (if decide (0 < i)
             then propagate feedback_matrices z_values i (delta st)
             else Ok (delta st)) in
  Ok {| delta := d; grad_weights := gws; grad_biases := gbs |}.

Fixpoint backward_loop (feedback_matrices z_values activations : list (tensor F))
  (idxs : list nat) (st : grads) : result grads :=
  match idxs with
  | [] => Ok st
  | i :: rest =>
      let* st' := backward_body feedback_matrices z_values activations i st in
      backward_loop feedback_matrices z_values activations rest st'
  end.

(** [None] stands for an absent gradient. *)
Definition backward (c : ctx) (grad_output : tensor F)
  : result (list (option (tensor F))) :=
  let saved := saved_tensors c in
  let n := num_layers c in
  let weights := slice 0 n saved in
  let biases := slice n (2 * n) saved in
  let feedback_matrices := slice (2 * n) (3 * n) saved in
  let z_values := slice (3 * n) (4 * n) saved in
  let activations := drop (4 * n) saved in
  let grad_feedback_matrices : list (option (tensor F)) :=
    replicate (length feedback_matrices) None in
  let* st := backward_loop feedback_matrices z_values activations (reverse (seq 0 n))
               {| delta := grad_output;
                  grad_weights := replicate n None;
                  grad_biases := replicate n None |} in
  let gws := map (option_map contiguous) (grad_weights st) in
  let gbs := map (option_map contiguous) (grad_biases st) in
  Ok (None :: gws ++ gbs ++ grad_feedback_matrices).

(** [FeedbackAlignmentFunction.apply(input, *params)]: the value the caller sees. *)
Definition apply (x : tensor F) (params : list (tensor F)) : result (tensor F) :=
  let* r := forward x params in
  Ok (snd r).

End Function.
Arguments ctx F : clear implicits.
Arguments locals F : clear implicits.
Arguments grads F : clear implicits.
End FeedbackAlignmentFunction.

(** ** Initialisers *)

(** The sources the initialisers read: what a fresh allocation holds, one
    standard-normal draw, and one uniform draw within the Kaiming bound for
    a given fan-in (negative-slope argument [5**0.5]).  [G] is the state of
    the random generator. *)
Class Init (F G : Type) : Type := {
  uninitialized : nat -> F;
  normal : G -> F * G;
  kaiming : nat -> G -> F * G
}.

(** A generator that counts, for running the definitions on integers. *)
Global Instance Z_init : Init Z nat := {|
  uninitialized := fun k => Z.of_nat k;
  normal := fun g => (Z.of_nat g, S g);
  kaiming := fun fan_in g => (Z.of_nat (fan_in + g), S g)
|}.

Module Init.
Section Init.
Context {F G : Type} `{Scalar F} `{Init F G}.

Fixpoint draws (draw : G -> F * G) (n : nat) (g : G) : list F * G :=
  match n with
  | 0 => ([], g)
  | S n' =>
      let (x, g1) := draw g in
      let (xs, g2) := draws draw n' g1 in
      (x :: xs, g2)
  end.

(** [torch.Tensor(sizes)]: allocated, not initialised. *)
Definition Tensor (s : shape) : tensor F :=
  mkTensor s (tabulate (numel s) uninitialized).

(** [torch.randn(sizes)]. *)
Definition randn (s : shape) (g : G) : tensor F * G :=
  let (xs, g') := draws normal (numel s) g in
  (mkTensor s xs, g').

(** [nn.init.kaiming_uniform_(x, a=5**0.5)]: a tensor with no element is
    left alone, fewer than two dimensions have no fan-in, and otherwise
    every element is redrawn. *)
Definition kaiming_uniform_ (x : tensor F) (g : G) : result (tensor F * G) :=
  if decide (numel (tshape x) = 0) then Ok (x, g)
  else
    match tshape x with
    | Matrix r c =>
        let (xs, g') := draws (kaiming c) (r * c) g in
        Ok (mkTensor (Matrix r c) xs, g')
    | _ => Raise ValueError
    end.

(** [nn.init.constant_(x, 0)]. *)
Definition constant_ (x : tensor F) : tensor F :=
  mkTensor (tshape x) (replicate (numel (tshape x)) fzero).

End Init.
End Init.

(** ** The network *)

Module FeedbackAlignmentMLP.
Section MLP.
Context {F G : Type} `{Scalar F} `{Init F G}.

(** [nn.Parameter(data, requires_grad)]. *)
Record parameter : Type := mkParameter {
  data : tensor F;
  requires_grad : bool
}.

(** The three parameter lists the object owns. *)
Record self : Type := mkSelf {
  weights : list parameter;
  biases : list parameter;
  feedback_matrices : list parameter
}.

Definition set_data (p : parameter) (x : tensor F) : parameter :=
  {| data := x; requires_grad := requires_grad p |}.

(** [for weight in self.weights: nn.init.kaiming_uniform_(weight, a=5**0.5)],
    with the list as it stands when the loop is left. *)
Fixpoint reset_weights (ws : list parameter) (g : G)
  : list parameter * G * option exn :=
  match ws with
  | [] => ([], g, None)
  | w :: rest =>
      match Init.kaiming_uniform_ (data w) g with
      | Ok (x, g1) =>
          let '(rest', g2, e) := reset_weights rest g1 in
          (set_data w x :: rest', g2, e)
      | Raise e => (w :: rest, g, Some e)
      end
  end.

(** [reset_parameters]: the object and the generator when the method is
    left, and the exception that left it, if one did. *)
Definition reset_parameters (s : self) (g : G) : self * G * option exn :=
  let '(ws, g1, e) := reset_weights (weights s) g in
  match e with
  | Some e =>
      ({| weights := ws; biases := biases s;
          feedback_matrices := feedback_matrices s |}, g1, Some e)
  | None =>
      ({| weights := ws;
          biases := map (fun b => set_data b (Init.constant_ (data b))) (biases s);
          feedback_matrices := feedback_matrices s |}, g1, None)
  end.

(** One iteration of [for hidden_size in hidden_sizes]. *)
Definition add_hidden (acc : self * nat * G) (hidden_size : nat) : self * nat * G :=
  let '(s, prev_size, g) := acc in
  let w := mkParameter (Init.Tensor (Matrix hidden_size prev_size)) true in
  let b := mkParameter (Init.Tensor (Vector hidden_size)) true in
  let (f, g') := Init.randn (Matrix hidden_size prev_size) g in
  ({| weights := weights s ++ [w];
      biases := biases s ++ [b];
      feedback_matrices := feedback_matrices s ++ [mkParameter f false] |},
   hidden_size, g').

(** [__init__]: the object under construction and the generator when the
    method is left, and the exception that left it, if one did. *)
Definition __init__ (input_size : nat) (hidden_sizes : list nat) (output_size : nat)
  (g : G) : self * G * option exn :=
  let s0 := {| weights := []; biases := []; feedback_matrices := [] |} in
  let '(s1, prev_size, g1) := fold_left add_hidden hidden_sizes (s0, input_size, g) in
  let w := mkParameter (Init.Tensor (Matrix output_size prev_size)) true in
  let b := mkParameter (Init.Tensor (Vector output_size)) true in
  let s2 := {| weights := weights s1 ++ [w];
               biases := biases s1 ++ [b];
               feedback_matrices := feedback_matrices s1 |} in
  match last hidden_sizes with
  | None => (s2, g1, Some IndexError)
  | Some h =>
      let (f, g2) := Init.randn (Matrix output_size h) g1 in
      let s3 := {| weights := weights s2;
                   biases := biases s2;
                   feedback_matrices := feedback_matrices s2 ++ [mkParameter f false] |} in
      reset_parameters s3 g2
  end.

(** [FeedbackAlignmentMLP(input_size, hidden_sizes, output_size)]: the caller
    gets the object only when [__init__] returns. *)
Definition new (input_size : nat) (hidden_sizes : list nat) (output_size : nat)
  (g : G) : result (self * G) :=
  match __init__ input_size hidden_sizes output_size g with
  | (s, g', None) => Ok (s, g')
  | (_, _, Some e) => Raise e
  end.

(** The argument list [*self.weights, *self.biases, *self.feedback_matrices]. *)
Definition parameters (s : self) : list parameter :=
  weights s ++ biases s ++ feedback_matrices s.

Definition forward (s : self) (x : tensor F) : result (tensor F) :=
  FeedbackAlignmentFunction.apply x (map data (parameters s)).

End MLP.
Arguments parameter F : clear implicits.
Arguments self F : clear implicits.
End FeedbackAlignmentMLP.

(** ** A training step as the autograd engine and an optimizer drive it

    The training loop is not part of the file.  What the engine does with
    the pair is fixed by its calling convention: [apply] runs [forward],
    the gradient of the loss at the output goes to [backward], the tuple
    that comes back must hold one entry for [input] and one per parameter
    passed to [apply], in order, and a parameter is rewritten only when it
    requires a gradient and an entry other than [None] came back for it. *)

Class Optimizer (F : Type) : Type := {
  update : tensor F -> tensor F -> tensor F
}.

Global Instance Z_sgd : Optimizer Z := {|
  update := fun p g =>
    mkTensor (tshape p) (zip_with (fun x y => (x - y)%Z) (tdata p) (tdata g))
|}.

Module Training.
Section Training.
Context {F G : Type} `{Scalar F} `{Init F G} `{Optimizer F}.
Import FeedbackAlignmentMLP.

(** A parameter built with [requires_grad=False]. *)
Definition frozen (p : parameter F) : Prop := requires_grad p = false.

Definition apply_gradient (p : parameter F) (g : option (tensor F)) : parameter F :=
  match g with
  | Some gr => if requires_grad p then set_data p (update (data p) gr) else p
  | None => p
  end.

Definition step (s : self F) (x : tensor F) (loss_grad : tensor F -> tensor F)
  : result (self F) :=
  let ps := parameters s in
  let* r := FeedbackAlignmentFunction.forward x (map data ps) in
  let* gs := FeedbackAlignmentFunction.backward (fst r) (loss_grad (snd r)) in
  if decide (length gs = S (length ps)) then
    let ps' := zip_with apply_gradient ps (tail gs) in
    let nw := length (weights s) in
    let nb := length (biases s) in
    Ok {| weights := take nw ps';
          biases := take nb (drop nw ps');
          feedback_matrices := drop (nw + nb) ps' |}
  else Raise RuntimeError.

(** What can happen to a model after it is built. *)
Inductive event : Type :=
| Reset
| Step (x : tensor F) (loss_grad : tensor F -> tensor F).

(** A call that raises leaves the object as the call left it. *)
Definition handle (acc : self F * G) (e : event) : self F * G :=
  let (s, g) := acc in
  match e with
  | Reset => fst (reset_parameters s g)
  | Step x loss_grad =>
      match step s x loss_grad with
      | Ok s' => (s', g)
      | Raise _ => (s, g)
      end
  end.

Definition lifetime (s : self F) (g : G) (events : list event) : self F * G :=
  fold_left handle events (s, g).

End Training.
End Training.

(** ** Vocabulary of the specification *)

Section Vocabulary.
Context {F : Type} `{Scalar F}.

(** A tensor of a given shape whose storage has that many elements. *)
Definition has_shape (x : tensor F) (s : shape) : Prop :=
  tshape x = s /\ wf x.

(** [dims] lists the widths [input_size, hidden_sizes..., output_size]. *)
Definition dim (dims : list nat) (i : nat) : nat := nth i dims 0.

(** [n] tensors, the [i]-th of shape [shape_of i]. *)
Definition layered (shape_of : nat -> shape) (n : nat) (l : list (tensor F)) : Prop :=
  length l = n /\ forall i x, l !! i = Some x -> has_shape x (shape_of i).

Definition weight_shape (dims : list nat) (i : nat) : shape :=
  Matrix (dim dims (S i)) (dim dims i).

Definition bias_shape (dims : list nat) (i : nat) : shape :=
  Vector (dim dims (S i)).

Definition batch_shape (N : nat) (dims : list nat) (i : nat) : shape :=
  Matrix N (dim dims i).

(** Shape-consistent parameters of a network with [length dims - 1] layers. *)
Record consistent_params (dims : list nat) (ws bs fs : list (tensor F)) : Prop := {
  cp_layers : 2 <= length dims;
  cp_weights : layered (weight_shape dims) (length dims - 1) ws;
  cp_biases : layered (bias_shape dims) (length dims - 1) bs;
  cp_feedback : layered (weight_shape dims) (length dims - 1) fs
}.

(** Shape-consistent saved state for a batch of [N] rows. *)
Record consistent_saved (N : nat) (dims : list nat)
  (ws bs fs zs acts : list (tensor F)) : Prop := {
  cs_params : consistent_params dims ws bs fs;
  cs_z_values : layered (fun i => batch_shape N dims (S i)) (length dims - 1) zs;
  cs_activations : layered (batch_shape N dims) (length dims) acts
}.

(** The equations of layer [i] of an [n]-layer network: [z_i = a_i W_i^T + b_i],
    and [a_(i+1) = relu z_i] below the last layer, [z_i] itself at the last. *)
Definition forward_layer (n : nat) (ws bs zs acts : list (tensor F)) (i : nat) : Prop :=
  exists x w b m z,
    acts !! i = Some x /\ ws !! i = Some w /\ bs !! i = Some b /\
    matmul x (t w) = Ok m /\ add m b = Ok z /\
    zs !! i = Some z /\
    acts !! S i = Some (if decide (i < n - 1) then relu z else z).

(** What holds of the locals of [forward] when [k] layers have been run. *)
Record forward_inv (N : nat) (dims : list nat) (ws bs : list (tensor F))
  (x0 : tensor F) (k : nat) (st : FeedbackAlignmentFunction.locals F) : Prop := {
  fi_z_length : length (FeedbackAlignmentFunction.z_values st) = k;
  fi_act_length : length (FeedbackAlignmentFunction.activations st) = S k;
  fi_first : FeedbackAlignmentFunction.activations st !! 0 = Some x0;
  fi_input :
    FeedbackAlignmentFunction.activations st !! k
    = Some (FeedbackAlignmentFunction.input st);
  fi_z_shapes :
    forall i z, FeedbackAlignmentFunction.z_values st !! i = Some z ->
                has_shape z (batch_shape N dims (S i));
  fi_act_shapes :
    forall i a, FeedbackAlignmentFunction.activations st !! i = Some a ->
                has_shape a (batch_shape N dims i);
  fi_layers :
    forall i, i < k ->
      forward_layer (length ws) ws bs
        (FeedbackAlignmentFunction.z_values st)
        (FeedbackAlignmentFunction.activations st) i
}.

(** The gradients of layer [i] from the delta [ds !! i] that reaches it:
    [grad_W_i = delta^T a_i] and [grad_b_i] the sum of [delta] over the batch. *)
Definition backward_layer (acts ds : list (tensor F))
  (gws gbs : list (option (tensor F))) (i : nat) : Prop :=
  exists d a gw,
    ds !! i = Some d /\ acts !! i = Some a /\
    matmul (t d) a = Ok gw /\
    gws !! i = Some (Some gw) /\
    gbs !! i = Some (Some (sum0 d)).

(** The delta handed from layer [S i] to layer [i]: the product with the
    feedback matrix of layer [S i], gated entry by entry by the sign test on
    [z_i], whose rows have width [w]. *)
Definition delta_step (N w : nat) (fs zs ds : list (tensor F)) (i : nat) : Prop :=
  exists d f m z d',
    ds !! S i = Some d /\ fs !! S i = Some f /\
    matmul d f = Ok m /\
    zs !! i = Some z /\
    mul m (float (gt_zero z)) = Ok d' /\
    ds !! i = Some d' /\
    forall r c, r < N -> c < w ->
      item d' (r * w + c)
      = fmul (item m (r * w + c)) (if fgt0 (item z (r * w + c)) then fone else fzero).

(** What holds when the loop of [backward] has run layers [n-1] down to [0],
    entered with the locals [st] and left with [st']. *)
Record backward_post (N : nat) (dims : list nat) (fs zs acts : list (tensor F))
  (n : nat) (st st' : FeedbackAlignmentFunction.grads F)
  (ds : list (tensor F)) : Prop := {
  bp_length : length ds = n;
  bp_top : 0 < n -> ds !! (n - 1) = Some (FeedbackAlignmentFunction.delta st);
  bp_shapes : forall i d, ds !! i = Some d -> has_shape d (batch_shape N dims (S i));
  bp_layers :
    forall i, i < n ->
      backward_layer acts ds
        (FeedbackAlignmentFunction.grad_weights st')
        (FeedbackAlignmentFunction.grad_biases st') i;
  bp_steps : forall i, S i < n -> delta_step N (dim dims (S i)) fs zs ds i;
  bp_gw_length :
    length (FeedbackAlignmentFunction.grad_weights st')
    = length (FeedbackAlignmentFunction.grad_weights st);
  bp_gb_length :
    length (FeedbackAlignmentFunction.grad_biases st')
    = length (FeedbackAlignmentFunction.grad_biases st);
  bp_gw_frame :
    forall i, n <= i ->
      FeedbackAlignmentFunction.grad_weights st' !! i
      = FeedbackAlignmentFunction.grad_weights st !! i;
  bp_gb_frame :
    forall i, n <= i ->
      FeedbackAlignmentFunction.grad_biases st' !! i
      = FeedbackAlignmentFunction.grad_biases st !! i;
  bp_gw_shapes :
    forall i gw, i < n ->
      FeedbackAlignmentFunction.grad_weights st' !! i = Some (Some gw) ->
      has_shape gw (weight_shape dims i);
  bp_gb_shapes :
    forall i gb, i < n ->
      FeedbackAlignmentFunction.grad_biases st' !! i = Some (Some gb) ->
      has_shape gb (bias_shape dims i)
}.

(** What holds of the locals of [forward] after [k] layers, whatever the
    shapes: the layers run so far satisfy their equations. *)
Record forward_progress (ws bs : list (tensor F)) (k : nat)
  (st : FeedbackAlignmentFunction.locals F) : Prop := {
  fp_z_length : length (FeedbackAlignmentFunction.z_values st) = k;
  fp_act_length : length (FeedbackAlignmentFunction.activations st) = S k;
  fp_input :
    FeedbackAlignmentFunction.activations st !! k
    = Some (FeedbackAlignmentFunction.input st);
  fp_layers :
    forall i, i < k ->
      forward_layer (length ws) ws bs
        (FeedbackAlignmentFunction.z_values st)
        (FeedbackAlignmentFunction.activations st) i
}.

(** Layer [k] is refused: its matrix product is, or the sum with its bias is. *)
Definition layer_refused (ws bs : list (tensor F)) (k : nat) (a : tensor F) : Prop :=
  exists w b,
    ws !! k = Some w /\ bs !! k = Some b
    /\ (matmul a (t w) = Raise RuntimeError
        \/ exists m, matmul a (t w) = Ok m /\ add m b = Raise RuntimeError).

(** Every weight is a matrix and every bias a vector with one entry per row
    of its weight. *)
Definition typed_layers (ws bs : list (tensor F)) : Prop :=
  forall i w, ws !! i = Some w ->
    exists b r c, bs !! i = Some b /\ tshape w = Matrix r c /\ tshape b = Vector r.

(** Executable checks of the shape predicates. *)
Definition has_shapeb (x : tensor F) (s : shape) : bool :=
  bool_decide (tshape x = s) && bool_decide (length (tdata x) = numel s).

Fixpoint layeredb_from (shape_of : nat -> shape) (a : nat) (l : list (tensor F)) : bool :=
  match l with
  | [] => true
  | x :: rest => has_shapeb x (shape_of a) && layeredb_from shape_of (S a) rest
  end.

Definition layeredb (shape_of : nat -> shape) (n : nat) (l : list (tensor F)) : bool :=
  bool_decide (length l = n) && layeredb_from shape_of 0 l.

End Vocabulary.

(** The names the specification gives to the two failures it describes. *)
Definition ConfigurationError : exn := "ConfigurationError".
Definition ShapeMismatch : exn := "ShapeMismatch".

Section Reference.
Context {F : Type} `{Scalar F}.

(** Standard backpropagation through one affine layer [z = a W^T + b] on a
    batch of [N] rows, given [g], the gradient of the loss at [z]:
    the entry [(j, k)] of the gradient at [W] sums [g[n][j] * a[n][k]] over
    the batch, and the entry [j] of the gradient at [b] sums [g[n][j]]. *)
Definition backprop_grad_W (N out inp : nat) (g a : tensor F) : tensor F :=
  mkTensor (Matrix out inp)
    (tabulate2 out inp (fun j k =>
       dot N (fun n => item g (n * out + j)) (fun n => item a (n * inp + k)))).

Definition backprop_grad_b (N out : nat) (g : tensor F) : tensor F :=
  mkTensor (Vector out)
    (tabulate out (fun j => total N (fun n => item g (n * out + j)))).

(** The weight of some layer does not take rows of the width the weight of
    the layer before it produces. *)
Definition consecutive_mismatch (ws : list (tensor F)) : Prop :=
  exists i w w',
    ws !! i = Some w /\ ws !! S i = Some w'
    /\ cols (tshape w') <> rows (tshape w).

(** The three lists of a model whose layers follow the widths [dims]. *)
Definition built (dims : list nat) (s : FeedbackAlignmentMLP.self F) : Prop :=
  layered (weight_shape dims) (length dims - 1)
    (map FeedbackAlignmentMLP.data (FeedbackAlignmentMLP.weights s))
  /\ layered (bias_shape dims) (length dims - 1)
       (map FeedbackAlignmentMLP.data (FeedbackAlignmentMLP.biases s))
  /\ layered (weight_shape dims) (length dims - 1)
       (map FeedbackAlignmentMLP.data (FeedbackAlignmentMLP.feedback_matrices s)).

Definition consistent_paramsb (dims : list nat) (ws bs fs : list (tensor F)) : bool :=
  bool_decide (2 <= length dims)
  && layeredb (weight_shape dims) (length dims - 1) ws
  && layeredb (bias_shape dims) (length dims - 1) bs
  && layeredb (weight_shape dims) (length dims - 1) fs.

Definition consistent_savedb (N : nat) (dims : list nat)
  (ws bs fs zs acts : list (tensor F)) : bool :=
  consistent_paramsb dims ws bs fs
  && layeredb (fun i => batch_shape N dims (S i)) (length dims - 1) zs
  && layeredb (batch_shape N dims) (length dims) acts.

End Reference.

(** ** A small network on integers *)

Definition ztensor (s : shape) (xs : list Z) : tensor Z := mkTensor s xs.

Module Sample.
Definition dims : list nat := [2; 2; 1].
Definition x : tensor Z := ztensor (Matrix 1 2) [1; 2]%Z.
Definition ws : list (tensor Z) :=
  [ztensor (Matrix 2 2) [1; 0; 0; -1]%Z; ztensor (Matrix 1 2) [3; 4]%Z].
Definition bs : list (tensor Z) :=
  [ztensor (Vector 2) [0; 2]%Z; ztensor (Vector 1) [5]%Z].
Definition fs : list (tensor Z) :=
  [ztensor (Matrix 2 2) [7; 7; 7; 7]%Z; ztensor (Matrix 1 2) [1; -1]%Z].
Definition zs : list (tensor Z) :=
  [ztensor (Matrix 1 2) [1; 0]%Z; ztensor (Matrix 1 1) [8]%Z].
Definition acts : list (tensor Z) :=
  [x; ztensor (Matrix 1 2) [1; 0]%Z; ztensor (Matrix 1 1) [8]%Z].
Definition grad_output : tensor Z := ztensor (Matrix 1 1) [1]%Z.
(** A second layer whose weight expects rows of width three. *)
Definition ws_bad : list (tensor Z) :=
  [ztensor (Matrix 2 2) [1; 0; 0; -1]%Z; ztensor (Matrix 1 3) [3; 4; 5]%Z].
End Sample.

(** ** The same network on floats, with an infinite incoming gradient *)

Module FloatSample.
Definition ftensor (s : shape) (xs : list PrimFloat.float) : tensor PrimFloat.float :=
  mkTensor s xs.
Definition o : PrimFloat.float := PrimFloat.zero.
Definition i : PrimFloat.float := PrimFloat.one.
Definition dims : list nat := [2; 2; 1].
Definition x : tensor PrimFloat.float := ftensor (Matrix 1 2) [i; o].
Definition ws : list (tensor PrimFloat.float) :=
  [ftensor (Matrix 2 2) [i; o; o; i]; ftensor (Matrix 1 2) [i; i]].
Definition bs : list (tensor PrimFloat.float) :=
  [ftensor (Vector 2) [o; o]; ftensor (Vector 1) [o]].
Definition fs : list (tensor PrimFloat.float) :=
  [ftensor (Matrix 2 2) [i; i; i; i]; ftensor (Matrix 1 2) [i; i]].
(** What [forward] saves on [x]: the second hidden unit is at zero. *)
Definition zs : list (tensor PrimFloat.float) :=
  [ftensor (Matrix 1 2) [i; o]; ftensor (Matrix 1 1) [i]].
Definition acts : list (tensor PrimFloat.float) :=
  [x; ftensor (Matrix 1 2) [i; o]; ftensor (Matrix 1 1) [i]].
Definition grad_output : tensor PrimFloat.float :=
  ftensor (Matrix 1 1) [PrimFloat.infinity].
End FloatSample.

(** * Properties *)

(** ** Lists, slices and tables *)

Lemma length_tabulate {A : Type} (n : nat) (f : nat -> A) :
  length (tabulate n f) = n.
Proof. unfold tabulate. by rewrite length_map, length_seq. Qed.

Lemma nth_tabulate {A : Type} (n : nat) (f : nat -> A) (d : A) (i : nat) :
  i < n -> nth i (tabulate n f) d = f i.
Proof.
  intros Hi. unfold tabulate.
  rewrite (nth_indep _ d (f 0)) by (rewrite length_map, length_seq; lia).
  rewrite (map_nth f (seq 0 n) 0 i), seq_nth; auto.
Qed.

Lemma length_table_from {A : Type} (c : nat) (f : nat -> nat -> A) (r a : nat) :
  length (flat_map (fun i => tabulate c (f i)) (seq a r)) = r * c.
Proof.
  revert a. induction r as [|r IH]; intros a; simpl; [done|].
  by rewrite length_app, length_tabulate, IH.
Qed.

Lemma length_tabulate2 {A : Type} (r c : nat) (f : nat -> nat -> A) :
  length (tabulate2 r c f) = r * c.
Proof. apply length_table_from. Qed.

Lemma nth_table_from {A : Type} (c : nat) (f : nat -> nat -> A) (d : A) (r a i j : nat) :
  i < r -> j < c ->
  nth (i * c + j) (flat_map (fun i => tabulate c (f i)) (seq a r)) d = f (a + i) j.
Proof.
  revert a i. induction r as [|r IH]; intros a i Hi Hj; [lia|].
  simpl. destruct i as [|i].
  - rewrite app_nth1 by (rewrite length_tabulate; lia).
    simpl. rewrite Nat.add_0_r. by apply nth_tabulate.
  - rewrite app_nth2 by (rewrite length_tabulate; simpl; lia).
    rewrite length_tabulate.
    replace (S i * c + j - c) with (i * c + j) by (simpl; lia).
    rewrite IH by lia. f_equal. lia.
Qed.

Lemma nth_tabulate2 {A : Type} (r c : nat) (f : nat -> nat -> A) (d : A) (i j : nat) :
  i < r -> j < c -> nth (i * c + j) (tabulate2 r c f) d = f i j.
Proof. intros Hi Hj. unfold tabulate2. by rewrite nth_table_from. Qed.

Lemma slice_0 {A : Type} (n : nat) (l : list A) : slice 0 n l = take n l.
Proof. unfold slice. by rewrite Nat.sub_0_r, drop_0. Qed.

Lemma slice_app_here {A : Type} (a b : nat) (l1 l2 l3 : list A) :
  length l1 = a -> length l2 = b - a -> slice a b (l1 ++ l2 ++ l3) = l2.
Proof.
  intros H1 H2. unfold slice.
  rewrite drop_app_length' by done.
  by rewrite take_app_length'.
Qed.

Lemma getitem_Some {A : Type} (l : list A) (i : nat) (x : A) :
  l !! i = Some x -> getitem l i = Ok x.
Proof. intros E. unfold getitem. by rewrite E. Qed.

Lemma setitem_Ok {A : Type} (l : list A) (i : nat) (v : A) :
  i < length l -> setitem l i v = Ok (<[i := v]> l).
Proof. intros Hi. unfold setitem. by rewrite decide_True. Qed.

Lemma reverse_seq_S (n : nat) : reverse (seq 0 (S n)) = n :: reverse (seq 0 n).
Proof. by rewrite seq_S, reverse_app. Qed.

(** ** Shapes of the tensor operations *)

Section Shapes.
Context {F : Type} `{Scalar F}.
Implicit Types (x y a b : tensor F) (s : shape).

Lemma t_has_shape a (n k : nat) :
  has_shape a (Matrix n k) -> has_shape (t a) (Matrix k n).
Proof.
  intros [Hs _]. unfold t. rewrite Hs. split; [done|].
  unfold wf. simpl. by rewrite length_tabulate2.
Qed.

Lemma matmul_has_shape a b (n k m : nat) :
  has_shape a (Matrix n k) -> has_shape b (Matrix k m) ->
  exists c, matmul a b = Ok c /\ has_shape c (Matrix n m).
Proof.
  intros [Ha _] [Hb _]. unfold matmul. rewrite Ha, Hb.
  rewrite decide_True by done.
  eexists; split; [done|]. split; [done|].
  unfold wf. simpl. by rewrite length_tabulate2.
Qed.

Lemma bdim_same (n : nat) : bdim n n = Ok n.
Proof. unfold bdim. by rewrite decide_True. Qed.

Lemma add_bias_has_shape a b (n m : nat) :
  has_shape a (Matrix n m) -> has_shape b (Vector m) ->
  exists c, add a b = Ok c /\ has_shape c (Matrix n m).
Proof.
  intros [Ha _] [Hb _]. unfold add, broadcast. rewrite Ha, Hb. simpl.
  destruct (bdim n 1) as [r|e] eqn:Er.
  - assert (r = n) as ->.
    { unfold bdim in Er. repeat case_decide; simplify_eq; done. }
    simpl. rewrite bdim_same. simpl.
    eexists; split; [done|]. split; [done|].
    unfold wf. simpl. by rewrite length_tabulate2.
  - unfold bdim in Er. repeat case_decide; simplify_eq.
Qed.

Lemma mul_same_has_shape a b (n m : nat) :
  has_shape a (Matrix n m) -> has_shape b (Matrix n m) ->
  exists c, mul a b = Ok c /\ has_shape c (Matrix n m).
Proof.
  intros [Ha _] [Hb _]. unfold mul, broadcast. rewrite Ha, Hb. simpl.
  rewrite !bdim_same. simpl.
  eexists; split; [done|]. split; [done|].
  unfold wf. simpl. by rewrite length_tabulate2.
Qed.

Lemma relu_has_shape x s : has_shape x s -> has_shape (relu x) s.
Proof.
  intros [Hs Hw]. split; [done|]. unfold wf, relu in *. simpl.
  by rewrite length_map, Hw, Hs.
Qed.

Lemma mask_has_shape x s : has_shape x s -> has_shape (float (gt_zero x)) s.
Proof.
  intros [Hs Hw]. split; [done|]. unfold wf, float, gt_zero in *. simpl.
  by rewrite !length_map, Hw, Hs.
Qed.

Lemma sum0_has_shape x (n m : nat) :
  has_shape x (Matrix n m) -> has_shape (sum0 x) (Vector m).
Proof.
  intros [Hs _]. unfold sum0. rewrite Hs. split; [done|].
  unfold wf. simpl. by rewrite length_tabulate.
Qed.

(** For a matrix, the entry broadcasting reads at [(i, j)] is the entry at
    that position. *)
Lemma bitem_matrix x (r c i j : nat) :
  tshape x = Matrix r c -> i < r -> j < c -> bitem x i j = item x (i * c + j).
Proof.
  intros Hs Hi Hj. unfold bitem. rewrite Hs. simpl.
  repeat case_decide; f_equal; lia.
Qed.

Lemma item_mask x (k : nat) :
  k < length (tdata x) ->
  item (float (gt_zero x)) k = if fgt0 (item x k) then fone else fzero.
Proof.
  intros Hk. unfold item, float, gt_zero. simpl.
  rewrite map_map.
  rewrite (nth_indep _ fzero ((fun v => if fgt0 v then fone else fzero) fzero))
    by (rewrite length_map; lia).
  by rewrite (map_nth (fun v => if fgt0 v then fone else fzero)).
Qed.

(** Entries of an elementwise product of two matrices of one shape. *)
Lemma item_mul_same a b c (n m i j : nat) :
  tshape a = Matrix n m -> tshape b = Matrix n m -> mul a b = Ok c ->
  i < n -> j < m ->
  item c (i * m + j) = fmul (item a (i * m + j)) (item b (i * m + j)).
Proof.
  intros Ha Hb Hc Hi Hj. unfold mul, broadcast in Hc.
  rewrite Ha, Hb in Hc. simpl in Hc. rewrite !bdim_same in Hc. simpl in Hc.
  injection Hc as <-. unfold item at 1. simpl.
  rewrite nth_tabulate2 by done.
  by rewrite !(bitem_matrix _ n m).
Qed.

End Shapes.

(** ** The forward pass *)

Section Forward.
Context {F : Type} `{Scalar F}.
Import FeedbackAlignmentFunction.
Implicit Types (ws bs fs zs acts : list (tensor F)) (st : locals F).

Lemma has_shapeb_sound (x : tensor F) (s : shape) :
  has_shapeb x s = true -> has_shape x s.
Proof.
  unfold has_shapeb. intros [H1 H2]%andb_prop.
  apply bool_decide_eq_true_1 in H1. apply bool_decide_eq_true_1 in H2.
  split; [done|]. unfold wf. by rewrite H1.
Qed.

Lemma layeredb_from_sound shape_of (l : list (tensor F)) (a : nat) :
  layeredb_from shape_of a l = true ->
  forall i x, l !! i = Some x -> has_shape x (shape_of (a + i)).
Proof.
  revert a. induction l as [|y l IH]; intros a Hb i x Hx; [done|].
  simpl in Hb. apply andb_prop in Hb as [H1 H2].
  destruct i as [|i]; simpl in Hx.
  - simplify_eq. rewrite Nat.add_0_r. by apply has_shapeb_sound.
  - replace (a + S i) with (S a + i) by lia. by eapply IH.
Qed.

Lemma layeredb_sound shape_of (n : nat) (l : list (tensor F)) :
  layeredb shape_of n l = true -> layered shape_of n l.
Proof.
  unfold layeredb. intros [H1 H2]%andb_prop.
  apply bool_decide_eq_true_1 in H1. split; [done|].
  intros i x Hx. by apply (layeredb_from_sound shape_of l 0).
Qed.

Lemma layered_lookup shape_of (n : nat) (l : list (tensor F)) (i : nat) :
  layered shape_of n l -> i < n ->
  exists x, l !! i = Some x /\ has_shape x (shape_of i).
Proof.
  intros [Hlen Hsh] Hi.
  destruct (lookup_lt_is_Some_2 l i) as [x Hx]; [lia|].
  exists x. split; [done|]. by apply Hsh.
Qed.

Lemma forward_layer_app n ws bs zs acts zs' acts' (i : nat) :
  forward_layer n ws bs zs acts i -> forward_layer n ws bs (zs ++ zs') (acts ++ acts') i.
Proof.
  intros (x & w & b & m & z & Hx & Hw & Hb & Hm & Hz & Hzi & Hnext).
  exists x, w, b, m, z. repeat split; try done.
  - by apply lookup_app_l_Some.
  - by apply lookup_app_l_Some.
  - by apply lookup_app_l_Some.
Qed.

(** One layer: the affine transform is accepted and the invariant moves on. *)
Lemma forward_body_inv (N : nat) (dims : list nat) ws bs (x0 : tensor F) (k : nat) st :
  layered (weight_shape dims) (length dims - 1) ws ->
  layered (bias_shape dims) (length dims - 1) bs ->
  k < length dims - 1 ->
  forward_inv N dims ws bs x0 k st ->
  exists st', forward_body ws bs k st = Ok st' /\ forward_inv N dims ws bs x0 (S k) st'.
Proof.
  intros Hws Hbs Hk Hinv.
  destruct (layered_lookup _ _ _ k Hws Hk) as (w & Hw & Hwsh).
  destruct (layered_lookup _ _ _ k Hbs Hk) as (b & Hb & Hbsh).
  pose proof (fi_act_shapes _ _ _ _ _ _ _ Hinv k _ (fi_input _ _ _ _ _ _ _ Hinv)) as Hin.
  destruct (matmul_has_shape (input st) (t w) N (dim dims k) (dim dims (S k)))
    as (m & Hm & Hmsh); [done | by apply t_has_shape |].
  destruct (add_bias_has_shape m b N (dim dims (S k))) as (z & Hz & Hzsh); [done..|].
  unfold forward_body, affine.
  rewrite (getitem_Some _ _ _ Hw). simpl. rewrite Hm. simpl.
  rewrite (getitem_Some _ _ _ Hb). simpl. rewrite Hz. simpl.
  eexists; split; [done|].
  pose proof (fi_z_length _ _ _ _ _ _ _ Hinv) as Hzl.
  pose proof (fi_act_length _ _ _ _ _ _ _ Hinv) as Hal.
  set (a' := if decide (k < length ws - 1) then relu z else z).
  assert (has_shape a' (batch_shape N dims (S k))) as Ha'.
  { unfold a'. case_decide; [by apply relu_has_shape | done]. }
  constructor; simpl.
  - rewrite length_app. simpl. lia.
  - rewrite length_app. simpl. lia.
  - apply lookup_app_l_Some. by eapply fi_first.
  - rewrite lookup_app_r by lia. by rewrite Hal, Nat.sub_diag.
  - intros i z' Hz'. apply lookup_app_Some in Hz' as [Hz' | [Hge Hz']].
    + by eapply fi_z_shapes.
    + apply list_lookup_singleton_Some in Hz' as [Hi ->].
      by replace i with k by lia.
  - intros i a Ha. apply lookup_app_Some in Ha as [Ha | [Hge Ha]].
    + by eapply fi_act_shapes.
    + apply list_lookup_singleton_Some in Ha as [Hi ->].
      by replace i with (S k) by lia.
  - intros i Hi. destruct (decide (i < k)) as [Hlt|Hge].
    + apply forward_layer_app. by eapply fi_layers.
    + assert (i = k) as -> by lia.
      exists (input st), w, b, m, z. repeat split; try done.
      * apply lookup_app_l_Some. by eapply fi_input.
      * rewrite lookup_app_r by lia. by rewrite Hzl, Nat.sub_diag.
      * rewrite lookup_app_r by lia. by rewrite Hal, Nat.sub_diag.
Qed.

Lemma forward_loop_inv (N : nat) (dims : list nat) ws bs (x0 : tensor F) (r k : nat) st :
  layered (weight_shape dims) (length dims - 1) ws ->
  layered (bias_shape dims) (length dims - 1) bs ->
  k + r = length dims - 1 ->
  forward_inv N dims ws bs x0 k st ->
  exists st', forward_loop ws bs (seq k r) st = (st', None)
              /\ forward_inv N dims ws bs x0 (length dims - 1) st'.
Proof.
  intros Hws Hbs. revert k st.
  induction r as [|r IH]; intros k st Hkr Hinv.
  - simpl. exists st. split; [done|]. by replace (length dims - 1) with k by lia.
  - simpl.
    destruct (forward_body_inv N dims ws bs x0 k st) as (st1 & Hbody & Hinv1);
      [done | done | lia | done |].
    rewrite Hbody. apply IH; [lia | done].
Qed.

End Forward.

Section ForwardSpec.
Context {F : Type} `{Scalar F}.
Import FeedbackAlignmentFunction.
Implicit Types (ws bs fs zs acts : list (tensor F)).

(** The three thirds of a parameter list that holds [n] of each kind. *)
Lemma params_thirds ws bs fs (n : nat) :
  length ws = n -> length bs = n -> length fs = n ->
  length (ws ++ bs ++ fs) / 3 = n
  /\ slice 0 n (ws ++ bs ++ fs) = ws
  /\ slice n (2 * n) (ws ++ bs ++ fs) = bs
  /\ slice (2 * n) (3 * n) (ws ++ bs ++ fs) = fs.
Proof.
  intros Hw Hb Hf. repeat split.
  - rewrite !length_app, Hw, Hb, Hf.
    replace (n + (n + n)) with (n * 3) by lia. by apply Nat.div_mul.
  - apply (slice_app_here 0 n [] ws (bs ++ fs)); [done | lia].
  - apply slice_app_here; [done | lia].
  - rewrite app_assoc, <- (app_nil_r fs) at 1.
    rewrite (slice_app_here (2 * n) (3 * n) (ws ++ bs) fs []).
    + done.
    + rewrite length_app. lia.
    + lia.
Qed.

Lemma dim_output (input_size : nat) (hidden_sizes : list nat) (output_size : nat) :
  dim (input_size :: hidden_sizes ++ [output_size]) (S (length hidden_sizes)) = output_size.
Proof.
  unfold dim. simpl. rewrite app_nth2 by lia. by rewrite Nat.sub_diag.
Qed.

Lemma forward_consistent (N : nat) (dims : list nat) ws bs fs (x : tensor F) :
  consistent_params dims ws bs fs ->
  has_shape x (Matrix N (dim dims 0)) ->
  exists st,
    forward_run x (ws ++ bs ++ fs) = (st, None)
    /\ forward x (ws ++ bs ++ fs)
       = Ok (mkCtx (ws ++ bs ++ fs ++ z_values st ++ activations st) (length dims - 1),
             input st)
    /\ forward_inv N dims ws bs x (length dims - 1) st.
Proof.
  intros [HL Hws Hbs Hfs] Hx.
  destruct (params_thirds ws bs fs (length dims - 1)) as (Hdiv & Sw & Sb & Sf);
    [apply Hws | apply Hbs | apply Hfs |].
  destruct (forward_loop_inv N dims ws bs x (length dims - 1) 0
              {| input := x; z_values := []; activations := [x] |})
    as (st & Hloop & Hinv); [done | done | lia | |].
  { constructor; simpl; try done.
    - intros [|i] a Ha; simpl in Ha; [|done]. by simplify_eq.
    - intros i Hi. lia. }
  assert (forward_run x (ws ++ bs ++ fs) = (st, None)) as Hrun.
  { unfold forward_run. rewrite Hdiv, Sw, Sb.
    destruct Hws as [-> _]. done. }
  exists st. split; [done|]. split; [|done].
  unfold forward. rewrite Hrun, Hdiv, Sw, Sb, Sf.
  destruct Hws as [-> _]. done.
Qed.

End ForwardSpec.

(** ** The backward pass *)

Section Backward.
Context {F : Type} `{Scalar F}.
Import FeedbackAlignmentFunction.
Implicit Types (ws bs fs zs acts ds : list (tensor F)) (st : grads F).

Lemma backward_layer_app acts ds ds' gws gbs (i : nat) :
  backward_layer acts ds gws gbs i -> backward_layer acts (ds ++ ds') gws gbs i.
Proof.
  intros (d & a & gw & Hd & Ha & Hgw & Hw & Hb).
  exists d, a, gw. repeat split; try done. by apply lookup_app_l_Some.
Qed.

Lemma delta_step_app (N w : nat) fs zs ds ds' (i : nat) :
  delta_step N w fs zs ds i -> delta_step N w fs zs (ds ++ ds') i.
Proof.
  intros (d & f & m & z & d' & Hd & Hf & Hm & Hz & Hmul & Hd' & Hgate).
  exists d, f, m, z, d'. repeat split; try done; by apply lookup_app_l_Some.
Qed.

(** The delta handed down from layer [n > 0]. *)
Lemma propagate_spec (N : nat) (dims : list nat) fs zs (n : nat) (d : tensor F) :
  layered (weight_shape dims) (length dims - 1) fs ->
  layered (fun i => batch_shape N dims (S i)) (length dims - 1) zs ->
  0 < n -> n < length dims - 1 ->
  has_shape d (batch_shape N dims (S n)) ->
  exists f m z d',
    fs !! n = Some f /\ matmul d f = Ok m /\ zs !! (n - 1) = Some z
    /\ mul m (float (gt_zero z)) = Ok d'
    /\ propagate fs zs n d = Ok d'
    /\ has_shape d' (batch_shape N dims n)
    /\ forall r c, r < N -> c < dim dims n ->
         item d' (r * dim dims n + c)
         = fmul (item m (r * dim dims n + c))
             (if fgt0 (item z (r * dim dims n + c)) then fone else fzero).
Proof.
  intros Hfs Hzs Hpos Hn Hd.
  destruct (layered_lookup _ _ _ n Hfs Hn) as (f & Hf & Hfsh).
  destruct (layered_lookup _ _ _ (n - 1) Hzs) as (z & Hz & Hzsh); [lia|].
  replace (S (n - 1)) with n in Hzsh by lia.
  destruct (matmul_has_shape d f N (dim dims (S n)) (dim dims n))
    as (m & Hm & Hmsh); [done..|].
  destruct (mul_same_has_shape m (float (gt_zero z)) N (dim dims n))
    as (d' & Hmul & Hd'); [done | by apply mask_has_shape |].
  exists f, m, z, d'. repeat split; try done; try apply Hd'.
  - unfold propagate. rewrite (getitem_Some _ _ _ Hf). simpl. rewrite Hm. simpl.
    by rewrite (getitem_Some _ _ _ Hz).
  - intros r c Hr Hc.
    rewrite (item_mul_same m (float (gt_zero z)) d' N (dim dims n));
      [| apply Hmsh | apply mask_has_shape in Hzsh; apply Hzsh | done..].
    rewrite item_mask; [done|].
    destruct Hzsh as [Hs Hw]. unfold wf in Hw. rewrite Hw, Hs. simpl. nia.
Qed.

(** The loop of [backward] over layers [n-1], ..., [0]. *)
Lemma backward_loop_spec (N : nat) (dims : list nat) fs zs acts (n : nat) st :
  layered (weight_shape dims) (length dims - 1) fs ->
  layered (fun i => batch_shape N dims (S i)) (length dims - 1) zs ->
  layered (batch_shape N dims) (length dims) acts ->
  n <= length dims - 1 ->
  (0 < n -> has_shape (delta st) (batch_shape N dims n)) ->
  length (grad_weights st) = length dims - 1 ->
  length (grad_biases st) = length dims - 1 ->
  exists st' ds,
    backward_loop fs zs acts (reverse (seq 0 n)) st = Ok st'
    /\ backward_post N dims fs zs acts n st st' ds.
Proof.
  intros Hfs Hzs Hacts. revert st.
  induction n as [|n IH]; intros st Hn Hd Hgw Hgb.
  - exists st, []. split; [done|].
    constructor; simpl; intros; try done; lia.
  - rewrite reverse_seq_S. simpl.
    specialize (Hd ltac:(lia)).
    destruct (layered_lookup _ _ _ n Hacts) as (a & Ha & Hash); [lia|].
    destruct (matmul_has_shape (t (delta st)) a (dim dims (S n)) N (dim dims n))
      as (gw & Hmm & Hgwsh); [by apply t_has_shape | done |].
    pose proof (sum0_has_shape _ _ _ Hd) as Hgbsh.
    assert (exists d1,
      (if decide (0 < n) then propagate fs zs n (delta st) else Ok (delta st)) = Ok d1
      /\ (0 < n -> has_shape d1 (batch_shape N dims n))
      /\ (0 < n -> exists f m z,
            fs !! n = Some f /\ matmul (delta st) f = Ok m /\ zs !! (n - 1) = Some z
            /\ mul m (float (gt_zero z)) = Ok d1
            /\ forall r c, r < N -> c < dim dims n ->
                 item d1 (r * dim dims n + c)
                 = fmul (item m (r * dim dims n + c))
                     (if fgt0 (item z (r * dim dims n + c)) then fone else fzero)))
      as (d1 & Hprop & Hd1 & Hstep).
    { case_decide as Hpos.
      - destruct (propagate_spec N dims fs zs n (delta st))
          as (f & m & z & d' & Hf & Hm & Hz & Hmul & Hp & Hsh & Hgate);
          [done | done | done | lia | done |].
        exists d'. split; [done|]. split; [done|]. intros _. by exists f, m, z.
      - exists (delta st). split; [done|]. split; intros; lia. }
    unfold backward_body. rewrite (getitem_Some _ _ _ Ha). simpl.
    rewrite Hmm. simpl.
    rewrite setitem_Ok by lia. simpl. rewrite setitem_Ok by lia. simpl.
    rewrite Hprop. simpl.
    set (st1 := {| delta := d1;
                   grad_weights := <[n := Some gw]> (grad_weights st);
                   grad_biases := <[n := Some (sum0 (delta st))]> (grad_biases st) |}).
    destruct (IH st1) as (st' & ds & Hloop & Hpost);
      [lia | done | by (simpl; rewrite length_insert)
       | by (simpl; rewrite length_insert) |].
    exists st', (ds ++ [delta st]). split; [done|].
    pose proof (bp_length _ _ _ _ _ _ _ _ _ Hpost) as Hlen.
    assert ((ds ++ [delta st]) !! n = Some (delta st)) as Htop.
    { rewrite lookup_app_r by lia. by rewrite Hlen, Nat.sub_diag. }
    assert (grad_weights st' !! n = Some (Some gw)) as Hgwn.
    { rewrite (bp_gw_frame _ _ _ _ _ _ _ _ _ Hpost n) by lia.
      simpl. apply list_lookup_insert_eq. lia. }
    assert (grad_biases st' !! n = Some (Some (sum0 (delta st)))) as Hgbn.
    { rewrite (bp_gb_frame _ _ _ _ _ _ _ _ _ Hpost n) by lia.
      simpl. apply list_lookup_insert_eq. lia. }
    constructor.
    + rewrite length_app. simpl. lia.
    + intros _. by replace (S n - 1) with n by lia.
    + intros i d Hi. apply lookup_app_Some in Hi as [Hi | [Hge Hi]].
      * by eapply bp_shapes.
      * apply list_lookup_singleton_Some in Hi as [Hi <-].
        by replace i with n by lia.
    + intros i Hi. destruct (decide (i < n)) as [Hlt|Hge].
      * apply backward_layer_app. by eapply bp_layers.
      * assert (i = n) as -> by lia. by exists (delta st), a, gw.
    + intros i Hi. destruct (decide (S i < n)) as [Hlt|Hge].
      * apply delta_step_app. by eapply bp_steps.
      * assert (n = S i) as Hni by lia.
        destruct (Hstep ltac:(lia)) as (f & m & z & Hf & Hm & Hz & Hmul & Hgate).
        exists (delta st), f, m, z, d1.
        rewrite <- Hni. repeat split; try done.
        -- by replace i with (n - 1) by lia.
        -- apply lookup_app_l_Some.
           replace i with (n - 1) by lia.
           by apply (bp_top _ _ _ _ _ _ _ _ _ Hpost ltac:(lia)).
    + rewrite (bp_gw_length _ _ _ _ _ _ _ _ _ Hpost). simpl. by rewrite length_insert.
    + rewrite (bp_gb_length _ _ _ _ _ _ _ _ _ Hpost). simpl. by rewrite length_insert.
    + intros i Hi. rewrite (bp_gw_frame _ _ _ _ _ _ _ _ _ Hpost i) by lia.
      simpl. apply list_lookup_insert_ne. lia.
    + intros i Hi. rewrite (bp_gb_frame _ _ _ _ _ _ _ _ _ Hpost i) by lia.
      simpl. apply list_lookup_insert_ne. lia.
    + intros i g Hi Hg. destruct (decide (i < n)) as [Hlt|Hge].
      * by eapply bp_gw_shapes.
      * assert (i = n) as -> by lia. rewrite Hgwn in Hg. by simplify_eq.
    + intros i g Hi Hg. destruct (decide (i < n)) as [Hlt|Hge].
      * by eapply bp_gb_shapes.
      * assert (i = n) as -> by lia. rewrite Hgbn in Hg. by simplify_eq.
Qed.

End Backward.

Section BackwardSpec.
Context {F : Type} `{Scalar F}.
Import FeedbackAlignmentFunction.
Implicit Types (ws bs fs zs acts ds : list (tensor F)).

Lemma contiguous_all (l : list (option (tensor F))) :
  map (option_map contiguous) l = l.
Proof. induction l as [|[x|] l IH]; simpl; by rewrite ?IH. Qed.

(** The five segments of what [forward] saved. *)
Lemma saved_segments ws bs fs zs acts (n : nat) :
  length ws = n -> length bs = n -> length fs = n -> length zs = n ->
  let saved := ws ++ bs ++ fs ++ zs ++ acts in
  slice (2 * n) (3 * n) saved = fs
  /\ slice (3 * n) (4 * n) saved = zs
  /\ drop (4 * n) saved = acts.
Proof.
  intros Hw Hb Hf Hz saved. unfold saved. repeat split.
  - rewrite (app_assoc ws bs).
    apply slice_app_here; [rewrite length_app|]; lia.
  - rewrite (app_assoc ws bs), (app_assoc (ws ++ bs) fs).
    apply slice_app_here; [rewrite !length_app|]; lia.
  - rewrite (app_assoc ws bs), (app_assoc (ws ++ bs) fs), (app_assoc _ zs).
    apply drop_app_length'. rewrite !length_app. lia.
Qed.

(** [backward] reads the feedback matrices, the pre-activations and the
    activations; the saved weights and biases are sliced out and left unread. *)
Lemma backward_unfold ws bs fs zs acts (n : nat) (grad_output : tensor F) :
  length ws = n -> length bs = n -> length fs = n -> length zs = n ->
  backward (mkCtx (ws ++ bs ++ fs ++ zs ++ acts) n) grad_output
  = let* st := backward_loop fs zs acts (reverse (seq 0 n))
                 {| delta := grad_output;
                    grad_weights := replicate n None;
                    grad_biases := replicate n None |} in
    Ok (None :: grad_weights st ++ grad_biases st ++ replicate n None).
Proof.
  intros Hw Hb Hf Hz.
  destruct (saved_segments ws bs fs zs acts n) as (Sf & Sz & Sa); [done..|].
  unfold backward. simpl saved_tensors. simpl num_layers.
  rewrite Sf, Sz, Sa, Hf.
  destruct (backward_loop _ _ _ _ _) as [st|e]; simpl; [|done].
  by rewrite !contiguous_all.
Qed.

Lemma backward_consistent (N : nat) (dims : list nat) ws bs fs zs acts
  (grad_output : tensor F) :
  consistent_saved N dims ws bs fs zs acts ->
  has_shape grad_output (batch_shape N dims (length dims - 1)) ->
  let st0 := {| delta := grad_output;
                grad_weights := replicate (length dims - 1) None;
                grad_biases := replicate (length dims - 1) None |} in
  exists st ds,
    backward (mkCtx (ws ++ bs ++ fs ++ zs ++ acts) (length dims - 1)) grad_output
    = Ok (None :: grad_weights st ++ grad_biases st ++ replicate (length dims - 1) None)
    /\ backward_post N dims fs zs acts (length dims - 1) st0 st ds.
Proof.
  intros [[HL Hws Hbs Hfs] Hzs Hacts] Hgo st0.
  destruct (backward_loop_spec N dims fs zs acts (length dims - 1) st0)
    as (st & ds & Hloop & Hpost);
    [done | done | done | lia | done | by (simpl; rewrite length_replicate)
     | by (simpl; rewrite length_replicate) |].
  exists st, ds. split; [|done].
  rewrite backward_unfold; [| apply Hws | apply Hbs | apply Hfs | apply Hzs].
  fold st0. by rewrite Hloop.
Qed.

End BackwardSpec.

(** ** Checks on the small network *)

Example sample_forward :
  FeedbackAlignmentFunction.forward Sample.x (Sample.ws ++ Sample.bs ++ Sample.fs)
  = Ok (FeedbackAlignmentFunction.mkCtx
          (Sample.ws ++ Sample.bs ++ Sample.fs ++ Sample.zs ++ Sample.acts) 2,
        ztensor (Matrix 1 1) [8]%Z).
Proof. reflexivity. Qed.

Example sample_backward :
  FeedbackAlignmentFunction.backward
    (FeedbackAlignmentFunction.mkCtx
       (Sample.ws ++ Sample.bs ++ Sample.fs ++ Sample.zs ++ Sample.acts) 2)
    Sample.grad_output
  = Ok [ None;
         Some (ztensor (Matrix 2 2) [1; 2; 0; 0]%Z);
         Some (ztensor (Matrix 1 2) [1; 0]%Z);
         Some (ztensor (Vector 2) [1; 0]%Z);
         Some (ztensor (Vector 1) [1]%Z);
         None; None ].
Proof. reflexivity. Qed.

Example sample_forward_bad :
  FeedbackAlignmentFunction.forward_run Sample.x
    (Sample.ws_bad ++ Sample.bs ++ Sample.fs)
  = ({| FeedbackAlignmentFunction.input := ztensor (Matrix 1 2) [1; 0]%Z;
        FeedbackAlignmentFunction.z_values := [ztensor (Matrix 1 2) [1; 0]%Z];
        FeedbackAlignmentFunction.activations :=
          [Sample.x; ztensor (Matrix 1 2) [1; 0]%Z] |},
     Some RuntimeError).
Proof. reflexivity. Qed.

Example sample_new_empty :
  FeedbackAlignmentMLP.new (F := Z) 4 [] 2 0 = Raise IndexError.
Proof. reflexivity. Qed.

Example sample_new :
  exists s g, FeedbackAlignmentMLP.new (F := Z) 2 [2] 1 0 = Ok (s, g)
    /\ map (fun p => tshape (FeedbackAlignmentMLP.data p))
         (FeedbackAlignmentMLP.parameters s)
       = [Matrix 2 2; Matrix 1 2; Vector 2; Vector 1; Matrix 2 2; Matrix 1 2].
Proof. eexists _, _. split; reflexivity. Qed.

(** ** The claims about the forward pass *)

Section Claims.
Context {F : Type} `{Scalar F}.
Import FeedbackAlignmentFunction.
Implicit Types (ws bs fs zs acts ds : list (tensor F)).

Lemma consistent_paramsb_sound (dims : list nat) ws bs fs :
  consistent_paramsb dims ws bs fs = true -> consistent_params dims ws bs fs.
Proof.
  unfold consistent_paramsb.
  intros [[[H1 H2]%andb_prop H3]%andb_prop H4]%andb_prop.
  apply bool_decide_eq_true_1 in H1.
  constructor; [done | by apply layeredb_sound..].
Qed.

Lemma consistent_savedb_sound (N : nat) (dims : list nat) ws bs fs zs acts :
  consistent_savedb N dims ws bs fs zs acts = true ->
  consistent_saved N dims ws bs fs zs acts.
Proof.
  unfold consistent_savedb.
  intros [[H1 H2]%andb_prop H3]%andb_prop.
  constructor; [by apply consistent_paramsb_sound | by apply layeredb_sound..].
Qed.

(** C2.  For every configuration [(input_size, hidden_sizes, output_size)],
    every shape-consistent parameter set and every batch size [N], [forward]
    on an input of shape [(N, input_size)] returns normally; the
    pre-activations and activations it saves satisfy, for every layer [i],
    [z_i = a_i W_i^T + b_i] with [a_(i+1) = relu z_i] for [i < L-1] and
    [a_L = z_(L-1)]; the value returned is [a_L] and has shape
    [(N, output_size)]; and the [forward] of the network, which hands its
    three parameter lists to the function, returns that same value. *)
Theorem forward_computes_layers (N input_size : nat) (hidden_sizes : list nat)
  (output_size : nat) ws bs fs (x : tensor F) :
  let dims := input_size :: hidden_sizes ++ [output_size] in
  let L := S (length hidden_sizes) in
  consistent_params dims ws bs fs ->
  has_shape x (Matrix N input_size) ->
  exists zs acts out,
    forward x (ws ++ bs ++ fs) = Ok (mkCtx (ws ++ bs ++ fs ++ zs ++ acts) L, out)
    /\ (forall s : FeedbackAlignmentMLP.self F,
          map FeedbackAlignmentMLP.data (FeedbackAlignmentMLP.weights s) = ws ->
          map FeedbackAlignmentMLP.data (FeedbackAlignmentMLP.biases s) = bs ->
          map FeedbackAlignmentMLP.data (FeedbackAlignmentMLP.feedback_matrices s) = fs ->
          FeedbackAlignmentMLP.forward s x = Ok out)
    /\ length zs = L /\ length acts = S L
    /\ acts !! 0 = Some x
    /\ (forall i, i < L -> forward_layer L ws bs zs acts i)
    /\ acts !! L = Some out
    /\ has_shape out (Matrix N output_size).
Proof.
  intros dims L Hcons Hx.
  assert (length dims - 1 = L) as HL.
  { unfold dims, L. simpl. rewrite length_app. simpl. lia. }
  destruct (forward_consistent N dims ws bs fs x Hcons Hx) as (st & Hrun & Hfwd & Hinv).
  rewrite HL in Hfwd, Hinv.
  exists (z_values st), (activations st), (input st).
  split; [done|]. split.
  { intros s Hw Hb Hf. unfold FeedbackAlignmentMLP.forward, apply.
    unfold FeedbackAlignmentMLP.parameters.
    rewrite !map_app, Hw, Hb, Hf, Hfwd. done. }
  split; [by eapply fi_z_length|]. split; [by eapply fi_act_length|].
  split; [by eapply fi_first|]. split.
  { intros i Hi. pose proof (fi_layers _ _ _ _ _ _ _ Hinv i Hi) as Hl.
    destruct Hcons as [_ [Hlen _] _ _]. by rewrite Hlen, HL in Hl. }
  split; [by eapply fi_input|].
  pose proof (fi_act_shapes _ _ _ _ _ _ _ Hinv L _ (fi_input _ _ _ _ _ _ _ Hinv)) as Hout.
  unfold batch_shape in Hout. unfold dims, L in Hout.
  by rewrite dim_output in Hout.
Qed.

End Claims.

(** The theorem for C2 at the small network. *)
Lemma forward_computes_layers_witness :
  consistent_params [2; 2; 1] Sample.ws Sample.bs Sample.fs
  /\ has_shape Sample.x (Matrix 1 2)
  /\ exists zs acts out,
       FeedbackAlignmentFunction.forward Sample.x (Sample.ws ++ Sample.bs ++ Sample.fs)
       = Ok (FeedbackAlignmentFunction.mkCtx
               (Sample.ws ++ Sample.bs ++ Sample.fs ++ zs ++ acts) 2, out)
       /\ acts !! 2 = Some out
       /\ has_shape out (Matrix 1 1).
Proof.
  assert (consistent_params [2; 2; 1] Sample.ws Sample.bs Sample.fs) as Hc
    by (apply consistent_paramsb_sound; reflexivity).
  assert (has_shape Sample.x (Matrix 1 2)) as Hx
    by (apply has_shapeb_sound; reflexivity).
  split; [exact Hc|]. split; [exact Hx|].
  destruct (forward_computes_layers 1 2 [2] 1 Sample.ws Sample.bs Sample.fs Sample.x Hc Hx)
    as (zs & acts & out & H1 & _ & _ & _ & _ & _ & H2 & H3).
  exists zs, acts, out. auto.
Defined.

(** ** The claims about the backward pass *)

Section BackwardClaims.
Context {F : Type} `{Scalar F}.
Import FeedbackAlignmentFunction.
Implicit Types (ws bs fs zs acts ds : list (tensor F)).


(** C3.  For every layer count [L >= 1] and every shape-consistent saved
    state, [backward] returns [1 + 3 L] entries: [None] for the input, then
    for every [W_i] a tensor of exactly the shape of [W_i], then for every
    [b_i] a tensor of exactly the shape of [b_i], then [None] for every
    feedback matrix. *)
Theorem backward_gradient_shapes (N : nat) (dims : list nat) ws bs fs zs acts
  (grad_output : tensor F) :
  let L := length dims - 1 in
  consistent_saved N dims ws bs fs zs acts ->
  has_shape grad_output (Matrix N (dim dims L)) ->
  exists out,
    backward (mkCtx (ws ++ bs ++ fs ++ zs ++ acts) L) grad_output = Ok out
    /\ length out = 1 + 3 * L
    /\ out !! 0 = Some None
    /\ (forall i w, ws !! i = Some w ->
          exists gw, out !! (1 + i) = Some (Some gw)
                     /\ tshape gw = tshape w /\ wf gw)
    /\ (forall i b, bs !! i = Some b ->
          exists gb, out !! (1 + L + i) = Some (Some gb)
                     /\ tshape gb = tshape b /\ wf gb)
    /\ (forall i f, fs !! i = Some f -> out !! (1 + 2 * L + i) = Some None).
Proof.
  intros L Hcons Hgo.
  destruct (backward_consistent N dims ws bs fs zs acts grad_output Hcons Hgo)
    as (st & ds & Hback & Hpost).
  fold L in Hback, Hpost.
  pose proof Hcons as [[HL [Hwl Hwsh] [Hbl Hbsh] [Hfl _]] _ _].
  fold L in Hwl, Hbl, Hfl.
  assert (length (grad_weights st) = L) as Hgwl.
  { rewrite (bp_gw_length _ _ _ _ _ _ _ _ _ Hpost). simpl. apply length_replicate. }
  assert (length (grad_biases st) = L) as Hgbl.
  { rewrite (bp_gb_length _ _ _ _ _ _ _ _ _ Hpost). simpl. apply length_replicate. }
  eexists. split; [exact Hback|].
  split. { simpl. rewrite !length_app, length_replicate. lia. }
  split; [done|]. split; [|split].
  - intros i w Hw.
    assert (i < L) as Hi by (apply lookup_lt_Some in Hw; lia).
    destruct (bp_layers _ _ _ _ _ _ _ _ _ Hpost i Hi) as (d & a & gw & _ & _ & _ & Hgw & _).
    exists gw. split.
    { simpl. by apply lookup_app_l_Some. }
    destruct (bp_gw_shapes _ _ _ _ _ _ _ _ _ Hpost i gw Hi Hgw) as [Hs Hwf].
    destruct (Hwsh i w Hw) as [Hs' _]. split; [congruence | done].
  - intros i b Hb.
    assert (i < L) as Hi by (apply lookup_lt_Some in Hb; lia).
    destruct (bp_layers _ _ _ _ _ _ _ _ _ Hpost i Hi) as (d & a & gw & _ & _ & _ & _ & Hgb).
    exists (sum0 d). split.
    { simpl. rewrite lookup_app_r by lia.
      replace (L + i - length (grad_weights st)) with i by lia.
      by apply lookup_app_l_Some. }
    destruct (bp_gb_shapes _ _ _ _ _ _ _ _ _ Hpost i _ Hi Hgb) as [Hs Hwf].
    destruct (Hbsh i b Hb) as [Hs' _]. split; [congruence | done].
  - intros i f Hf.
    assert (i < L) as Hi by (apply lookup_lt_Some in Hf; lia).
    simpl. rewrite lookup_app_r by lia. rewrite lookup_app_r by lia.
    apply lookup_replicate. split; [done | lia].
Qed.

End BackwardClaims.


(** *** The gate on floating-point scalars *)

Section FloatGate.
Local Existing Instance float_scalar.
Import FeedbackAlignmentFunction.

(** On floats [forward] saves, for the input [(1, 0)], a first
    pre-activation whose second entry is exactly zero. *)
Example float_sample_forward :
  forward FloatSample.x (FloatSample.ws ++ FloatSample.bs ++ FloatSample.fs)
  = Ok (mkCtx (FloatSample.ws ++ FloatSample.bs ++ FloatSample.fs
               ++ FloatSample.zs ++ FloatSample.acts) 2,
        FloatSample.ftensor (Matrix 1 1) [PrimFloat.one]).
Proof. vm_compute. reflexivity. Qed.

(** With an infinite [grad_output], the gradient [backward] returns for the
    first bias is NaN at that unit. *)
Example float_sample_backward :
  exists gs gb,
    backward (mkCtx (FloatSample.ws ++ FloatSample.bs ++ FloatSample.fs
                     ++ FloatSample.zs ++ FloatSample.acts) 2)
      FloatSample.grad_output
    = Ok gs
    /\ gs !! 3 = Some (Some gb)
    /\ PrimFloat.is_nan (item gb 1) = true.
Proof. eexists _, _. split; [vm_compute; reflexivity|]. split; reflexivity. Qed.


End FloatGate.

(** The theorem for C3 at the small network. *)
Lemma backward_gradient_shapes_witness :
  consistent_saved 1 Sample.dims Sample.ws Sample.bs Sample.fs Sample.zs Sample.acts
  /\ has_shape Sample.grad_output (Matrix 1 1)
  /\ exists out,
       FeedbackAlignmentFunction.backward
         (FeedbackAlignmentFunction.mkCtx
            (Sample.ws ++ Sample.bs ++ Sample.fs ++ Sample.zs ++ Sample.acts) 2)
         Sample.grad_output
       = Ok out
       /\ length out = 7.
Proof.
  assert (consistent_saved 1 Sample.dims Sample.ws Sample.bs Sample.fs Sample.zs
            Sample.acts) as Hc
    by (apply consistent_savedb_sound; reflexivity).
  assert (has_shape Sample.grad_output (Matrix 1 1)) as Hg
    by (apply has_shapeb_sound; reflexivity).
  split; [exact Hc|]. split; [exact Hg|].
  destruct (backward_gradient_shapes 1 Sample.dims Sample.ws Sample.bs Sample.fs
              Sample.zs Sample.acts Sample.grad_output Hc Hg)
    as (out & H1 & H2 & _).
  exists out. split; [exact H1 | exact H2].
Defined.

(** ** A single layer against standard backpropagation *)

Lemma tabulate_ext {A : Type} (n : nat) (f g : nat -> A) :
  (forall i, i < n -> f i = g i) -> tabulate n f = tabulate n g.
Proof.
  intros E. unfold tabulate. apply map_ext_in.
  intros i Hi. apply in_seq in Hi. apply E. lia.
Qed.

Lemma tabulate2_ext {A : Type} (r c : nat) (f g : nat -> nat -> A) :
  (forall i j, i < r -> j < c -> f i j = g i j) -> tabulate2 r c f = tabulate2 r c g.
Proof.
  intros E. unfold tabulate2.
  assert (forall l : list nat, (forall i, In i l -> i < r) ->
            flat_map (fun i => tabulate c (f i)) l
            = flat_map (fun i => tabulate c (g i)) l) as Hl.
  { induction l as [|i l IH]; intros Hin; simpl; [done|].
    rewrite IH by (intros; apply Hin; by right).
    f_equal. apply tabulate_ext. intros j Hj. apply E; [|done].
    apply Hin. by left. }
  apply Hl. intros i Hi. apply in_seq in Hi. lia.
Qed.

Section SingleLayer.
Context {F : Type} `{Scalar F}.
Import FeedbackAlignmentFunction.

Lemma dot_ext (k : nat) (f f' g g' : nat -> F) :
  (forall p, p < k -> f p = f' p) -> (forall p, p < k -> g p = g' p) ->
  dot k f g = dot k f' g'.
Proof.
  intros Ef Eg. unfold dot.
  assert (forall (l : list nat) (acc : F), (forall p, In p l -> p < k) ->
            fold_left (fun acc p => fadd acc (fmul (f p) (g p))) l acc
            = fold_left (fun acc p => fadd acc (fmul (f' p) (g' p))) l acc) as Hl.
  { induction l as [|p l IH]; intros acc Hin; simpl; [done|].
    rewrite Ef, Eg by (apply Hin; by left).
    apply IH. intros q Hq. apply Hin. by right. }
  apply Hl. intros p Hp. apply in_seq in Hp. lia.
Qed.

(** The entry [(j, i)] of the transpose is the entry [(i, j)]. *)
Lemma item_t (x : tensor F) (r c i j : nat) :
  tshape x = Matrix r c -> i < r -> j < c ->
  item (t x) (j * r + i) = item x (i * c + j).
Proof.
  intros Hs Hi Hj. unfold t. rewrite Hs. unfold item at 1. simpl.
  by rewrite nth_tabulate2.
Qed.

(** [g.t().matmul(a)] is the gradient backpropagation assigns to the weight. *)
Lemma matmul_t_backprop (N out inp : nat) (g a : tensor F) :
  tshape g = Matrix N out -> tshape a = Matrix N inp ->
  matmul (t g) a = Ok (backprop_grad_W N out inp g a).
Proof.
  intros Hg Ha. unfold matmul.
  assert (tshape (t g) = Matrix out N) as Ht by (unfold t; by rewrite Hg).
  rewrite Ht, Ha. rewrite decide_True by done.
  unfold backprop_grad_W. do 2 f_equal.
  apply tabulate2_ext. intros j k Hj Hk.
  apply dot_ext; [|done].
  intros n Hn. by apply (item_t g N out).
Qed.

(** [g.sum(0)] is the gradient backpropagation assigns to the bias. *)
Lemma sum0_backprop (N out : nat) (g : tensor F) :
  tshape g = Matrix N out -> sum0 g = backprop_grad_b N out g.
Proof. intros Hg. unfold sum0, backprop_grad_b. by rewrite Hg. Qed.

(** C4.  With a single affine layer, for every shape-consistent input,
    weight, bias, feedback matrix and [grad_output], [backward] returns for
    the weight [grad_output^T a_0], for the bias the sum of [grad_output]
    over the batch, and these are, entry for entry, the gradients standard
    backpropagation assigns to the weight and the bias of that layer. *)
Theorem single_layer_is_backprop (N inp out : nat) (w b f z0 a0 a1 grad_output : tensor F) :
  consistent_saved N [inp; out] [w] [b] [f] [z0] [a0; a1] ->
  has_shape grad_output (Matrix N out) ->
  exists gw,
    backward (mkCtx ([w] ++ [b] ++ [f] ++ [z0] ++ [a0; a1]) 1) grad_output
    = Ok [None; Some gw; Some (sum0 grad_output); None]
    /\ matmul (t grad_output) a0 = Ok gw
    /\ gw = backprop_grad_W N out inp grad_output a0
    /\ sum0 grad_output = backprop_grad_b N out grad_output.
Proof.
  intros [_ _ [_ Hacts]] [Hg _].
  destruct (Hacts 0 a0 eq_refl) as [Ha _]. unfold batch_shape, dim in Ha. simpl in Ha.
  pose proof (matmul_t_backprop N out inp grad_output a0 Hg Ha) as Hmm.
  exists (backprop_grad_W N out inp grad_output a0).
  split; [|split; [done | split; [done | by apply sum0_backprop]]].
  rewrite backward_unfold by done.
  change (reverse (seq 0 1)) with [0]. simpl backward_loop.
  unfold backward_body.
  change (getitem [a0; a1] 0) with (Ok a0). cbn [bind delta].
  rewrite Hmm. reflexivity.
Qed.

End SingleLayer.

(** The theorem for C4 at a layer with two inputs and two outputs. *)
Lemma single_layer_is_backprop_witness :
  let w := ztensor (Matrix 2 2) [1; 0; 0; -1]%Z in
  let b := ztensor (Vector 2) [0; 2]%Z in
  let f := ztensor (Matrix 2 2) [7; 7; 7; 7]%Z in
  let z := ztensor (Matrix 1 2) [1; 0]%Z in
  let g := ztensor (Matrix 1 2) [3; 5]%Z in
  consistent_saved 1 [2; 2] [w] [b] [f] [z] [Sample.x; z]
  /\ has_shape g (Matrix 1 2)
  /\ FeedbackAlignmentFunction.backward
       (FeedbackAlignmentFunction.mkCtx ([w] ++ [b] ++ [f] ++ [z] ++ [Sample.x; z]) 1) g
     = Ok [None; Some (backprop_grad_W 1 2 2 g Sample.x);
           Some (backprop_grad_b 1 2 g); None].
Proof.
  intros w b f z g.
  assert (consistent_saved 1 [2; 2] [w] [b] [f] [z] [Sample.x; z]) as Hc
    by (apply consistent_savedb_sound; reflexivity).
  assert (has_shape g (Matrix 1 2)) as Hg by (apply has_shapeb_sound; reflexivity).
  split; [exact Hc|]. split; [exact Hg|].
  destruct (single_layer_is_backprop 1 2 2 w b f z Sample.x z g Hc Hg)
    as (gw & H1 & _ & H2 & H3).
  rewrite H1, H2, H3. reflexivity.
Defined.

(** ** What [backward] does not read, and how [forward] cuts its arguments *)

Section Frame.
Context {F : Type} `{Scalar F}.
Import FeedbackAlignmentFunction.
Implicit Types (ws bs fs zs acts : list (tensor F)).

(** The loop of [backward] reads [feedback_matrices[i]] for [i > 0] only. *)
Lemma backward_loop_first_feedback fs zs acts (f' : tensor F) (n : nat) (st : grads F) :
  backward_loop (<[0 := f']> fs) zs acts (reverse (seq 0 n)) st
  = backward_loop fs zs acts (reverse (seq 0 n)) st.
Proof.
  revert st. induction n as [|n IH]; intros st; [done|].
  rewrite reverse_seq_S. simpl.
  assert (backward_body (<[0 := f']> fs) zs acts n st = backward_body fs zs acts n st)
    as ->.
  { unfold backward_body. case_decide as Hn; [|done].
    unfold propagate, getitem.
    rewrite list_lookup_insert_ne by lia. done. }
  destruct (backward_body fs zs acts n st) as [st'|e]; simpl; [apply IH | done].
Qed.

(** C6.  Every value [backward] returns is independent of
    [feedback_matrices[0]]: replacing, in the saved state of a network with
    [n] layers, the tensor at position [2 n], which is where [F_0] is kept,
    by any other tensor leaves the result of [backward] as it was, for
    every [grad_output]. *)
Theorem backward_ignores_first_feedback (saved : list (tensor F)) (n : nat)
  (f' grad_output : tensor F) :
  backward (mkCtx (<[2 * n := f']> saved) n) grad_output
  = backward (mkCtx saved n) grad_output.
Proof.
  destruct n as [|n].
  - unfold backward. simpl. done.
  - assert (0 < S n) as Hm by lia. revert Hm.
    generalize (S n) as m. intros m Hm.
    unfold backward. cbn [saved_tensors num_layers].
    assert (slice (2 * m) (3 * m) (<[2 * m := f']> saved)
            = <[0 := f']> (slice (2 * m) (3 * m) saved)) as ->.
    { unfold slice. rewrite drop_insert_ge by lia.
      replace (2 * m - 2 * m) with 0 by lia.
      rewrite take_insert_lt by lia. done. }
    assert (slice (3 * m) (4 * m) (<[2 * m := f']> saved)
            = slice (3 * m) (4 * m) saved) as ->.
    { unfold slice. rewrite drop_insert_lt by lia. done. }
    rewrite drop_insert_lt by lia.
    rewrite backward_loop_first_feedback, length_insert. done.
Qed.

(** C10.  [forward] cuts its parameter list at [n = len(params) // 3]:
    the first [n] entries are the weights the loop runs on, the next [n] the
    biases, the next [n] are saved as the feedback matrices, and the
    [len(params) mod 3] entries left over take no part: the result is the
    one [forward] gives without them. *)
Theorem forward_partitions_params (x : tensor F) (params : list (tensor F)) :
  let n := length params / 3 in
  let init := {| input := x; z_values := []; activations := [x] |} in
  exists ws bs fs rest,
    params = ws ++ bs ++ fs ++ rest
    /\ length ws = n /\ length bs = n /\ length fs = n
    /\ length rest = length params mod 3
    /\ forward_run x params = forward_loop ws bs (seq 0 n) init
    /\ forward x params
       = match forward_loop ws bs (seq 0 n) init with
         | (st, None) =>
             Ok (mkCtx (ws ++ bs ++ fs ++ z_values st ++ activations st) n, input st)
         | (_, Some e) => Raise e
         end
    /\ forward x params = forward x (ws ++ bs ++ fs).
Proof.
  intros n init.
  pose proof (Nat.div_mod_eq (length params) 3) as Hdm. fold n in Hdm.
  pose proof (Nat.mod_upper_bound (length params) 3 ltac:(lia)) as Hmod.
  set (ws := take n params).
  set (bs := take n (drop n params)).
  set (fs := take n (drop (2 * n) params)).
  set (rest := drop (3 * n) params).
  assert (length ws = n) as Hw by (unfold ws; rewrite length_take; lia).
  assert (length bs = n) as Hb by (unfold bs; rewrite length_take, length_drop; lia).
  assert (length fs = n) as Hf by (unfold fs; rewrite length_take, length_drop; lia).
  assert (slice 0 n params = ws) as Sw by apply slice_0.
  assert (slice n (2 * n) params = bs) as Sb.
  { unfold slice, bs. by replace (2 * n - n) with n by lia. }
  assert (slice (2 * n) (3 * n) params = fs) as Sf.
  { unfold slice, fs. by replace (3 * n - 2 * n) with n by lia. }
  assert (forward_run x params = forward_loop ws bs (seq 0 n) init) as Hrun.
  { unfold forward_run. fold n. by rewrite Sw, Sb, Hw. }
  assert (forward x params
          = match forward_loop ws bs (seq 0 n) init with
            | (st, None) =>
                Ok (mkCtx (ws ++ bs ++ fs ++ z_values st ++ activations st) n, input st)
            | (_, Some e) => Raise e
            end) as Hfwd.
  { unfold forward. rewrite Hrun. fold n. by rewrite Sw, Sb, Sf, Hw. }
  exists ws, bs, fs, rest. repeat split; try done.
  - unfold ws, bs, fs, rest.
    rewrite <- (take_drop n params) at 1. f_equal.
    rewrite <- (take_drop n (drop n params)) at 1. f_equal.
    rewrite drop_drop. replace (n + n) with (2 * n) by lia.
    rewrite <- (take_drop n (drop (2 * n) params)) at 1. f_equal.
    rewrite drop_drop. f_equal. lia.
  - unfold rest. rewrite length_drop. lia.
  - rewrite Hfwd.
    destruct (params_thirds ws bs fs n Hw Hb Hf) as (Hdiv & Tw & Tb & Tf).
    unfold forward, forward_run. rewrite Hdiv, Tw, Tb, Tf, Hw. done.
Qed.

End Frame.

(** ** Failures *)

Section Failures.
Context {F : Type} `{Scalar F}.
Import FeedbackAlignmentFunction.
Implicit Types (ws bs : list (tensor F)) (st : locals F).

Lemma matmul_raises (a b : tensor F) (e : exn) :
  matmul a b = Raise e -> e = RuntimeError.
Proof.
  unfold matmul. intros E.
  destruct (tshape a), (tshape b); try case_decide; by simplify_eq.
Qed.

Lemma bdim_raises (n m : nat) (e : exn) : bdim n m = Raise e -> e = RuntimeError.
Proof. unfold bdim. intros E. repeat case_decide; by simplify_eq. Qed.

Lemma add_raises (a b : tensor F) (e : exn) :
  add a b = Raise e -> e = RuntimeError.
Proof.
  unfold add, broadcast. intros E.
  destruct (bdim (rows (tshape a)) (rows (tshape b))) as [r|e1] eqn:Er; simpl in E.
  - destruct (bdim (cols (tshape a)) (cols (tshape b))) as [c|e2] eqn:Ec; simpl in E.
    + done.
    + simplify_eq. by eapply bdim_raises.
  - simplify_eq. by eapply bdim_raises.
Qed.

(** One layer, whatever the shapes: it either moves on or is refused with
    the library's error, leaving the locals as they were. *)
Lemma forward_body_progress ws bs (k : nat) st :
  k < length ws -> k < length bs ->
  forward_progress ws bs k st ->
  match forward_body ws bs k st with
  | Ok st' => forward_progress ws bs (S k) st'
  | Raise e => e = RuntimeError /\ layer_refused ws bs k (input st)
  end.
Proof.
  intros Hkw Hkb Hp.
  destruct (lookup_lt_is_Some_2 ws k Hkw) as [w Hw].
  destruct (lookup_lt_is_Some_2 bs k Hkb) as [b Hb].
  unfold forward_body, affine.
  rewrite (getitem_Some _ _ _ Hw). simpl.
  destruct (matmul (input st) (t w)) as [m|e] eqn:Hm; simpl.
  2:{ pose proof (matmul_raises _ _ _ Hm) as ->.
      split; [done|]. exists w, b. split; [done|]. split; [done|]. by left. }
  rewrite (getitem_Some _ _ _ Hb). simpl.
  destruct (add m b) as [z|e] eqn:Hz; simpl.
  2:{ pose proof (add_raises _ _ _ Hz) as ->.
      split; [done|]. exists w, b. split; [done|]. split; [done|].
      right. by exists m. }
  pose proof (fp_z_length _ _ _ _ Hp) as Hzl.
  pose proof (fp_act_length _ _ _ _ Hp) as Hal.
  constructor; simpl.
  - rewrite length_app. simpl. lia.
  - rewrite length_app. simpl. lia.
  - rewrite lookup_app_r by lia. by rewrite Hal, Nat.sub_diag.
  - intros i Hi. destruct (decide (i < k)) as [Hlt|Hge].
    + apply forward_layer_app. by eapply fp_layers.
    + assert (i = k) as -> by lia.
      exists (input st), w, b, m, z. repeat split; try done.
      * apply lookup_app_l_Some. by eapply fp_input.
      * rewrite lookup_app_r by lia. by rewrite Hzl, Nat.sub_diag.
      * rewrite lookup_app_r by lia. by rewrite Hal, Nat.sub_diag.
Qed.

Lemma forward_loop_progress ws bs (r k : nat) st :
  k + r = length ws -> length bs = length ws ->
  forward_progress ws bs k st ->
  match forward_loop ws bs (seq k r) st with
  | (st', None) => forward_progress ws bs (length ws) st'
  | (st', Some e) =>
      e = RuntimeError
      /\ length (z_values st') < length ws
      /\ forward_progress ws bs (length (z_values st')) st'
      /\ layer_refused ws bs (length (z_values st')) (input st')
  end.
Proof.
  revert k st. induction r as [|r IH]; intros k st Hkr Hbs Hp.
  - simpl. by replace (length ws) with k by lia.
  - simpl.
    pose proof (forward_body_progress ws bs k st ltac:(lia) ltac:(lia) Hp) as Hbody.
    destruct (forward_body ws bs k st) as [st1|e].
    + apply IH; [lia | done | done].
    + destruct Hbody as [-> Href].
      pose proof (fp_z_length _ _ _ _ Hp) as Hzl.
      rewrite Hzl. repeat split; [lia | apply Hp.. | done].
Qed.

Lemma matmul_Ok_matrix (a b c : tensor F) (n k k' m : nat) :
  tshape a = Matrix n k -> tshape b = Matrix k' m -> matmul a b = Ok c ->
  k = k' /\ tshape c = Matrix n m.
Proof.
  intros Ha Hb. unfold matmul. rewrite Ha, Hb.
  case_decide; intros E; by simplify_eq.
Qed.

Lemma add_bias_Ok (a b c : tensor F) (n m : nat) :
  tshape a = Matrix n m -> tshape b = Vector m -> add a b = Ok c ->
  tshape c = Matrix n m.
Proof.
  intros Ha Hb. unfold add, broadcast. rewrite Ha, Hb. simpl.
  rewrite bdim_same.
  destruct (bdim n 1) as [r|e] eqn:Er; simpl; intros E; simplify_eq.
  simpl. f_equal. unfold bdim in Er. by repeat case_decide; simplify_eq.
Qed.

(** With typed layers and a matrix as input, the activation that reaches
    a layer after the first has the width of the weight before it. *)
Lemma typed_activation_width ws bs (x : tensor F) (n : nat) st :
  typed_layers ws bs ->
  (exists N k, tshape x = Matrix N k) ->
  activations st !! 0 = Some x ->
  forward_progress ws bs n st ->
  forall i w, i < n -> ws !! i = Some w ->
    exists a N, activations st !! S i = Some a
                /\ tshape a = Matrix N (rows (tshape w)).
Proof.
  intros Hty (N & k & Hx) H0 Hp.
  assert (forall i, i <= n -> forall a, activations st !! i = Some a ->
            exists c, tshape a = Matrix N c
                      /\ forall j w, i = S j -> ws !! j = Some w -> c = rows (tshape w))
    as Hall.
  { induction i as [|i IH]; intros Hi a Ha.
    - rewrite H0 in Ha. simplify_eq. exists k. split; [done|]. intros; lia.
    - destruct (fp_layers _ _ _ _ Hp i ltac:(lia))
        as (a0 & w & b & m & z & Ha0 & Hw & Hb & Hm & Hz & _ & Hnext).
      destruct (IH ltac:(lia) a0 Ha0) as (c0 & Hsa0 & _).
      destruct (Hty i w Hw) as (b' & r & c & Hb' & Hsw & Hsb).
      assert (b' = b) as -> by congruence.
      assert (tshape (t w) = Matrix c r) as Htw by (unfold t; by rewrite Hsw).
      destruct (matmul_Ok_matrix _ _ _ _ _ _ _ Hsa0 Htw Hm) as [_ Hsm].
      pose proof (add_bias_Ok _ _ _ _ _ Hsm Hsb Hz) as Hsz.
      assert (a = if decide (i < length ws - 1) then relu z else z) as ->
        by congruence.
      exists r. split.
      + by case_decide.
      + intros j w' Hj Hw'. assert (j = i) as -> by lia.
        assert (w' = w) as -> by congruence. by rewrite Hsw. }
  intros i w Hi Hw.
  destruct (lookup_lt_is_Some_2 (activations st) (S i)) as [a Ha].
  { rewrite (fp_act_length _ _ _ _ Hp). lia. }
  destruct (Hall (S i) ltac:(lia) a Ha) as (c & Hsa & Hc).
  exists a, N. split; [done|]. by rewrite <- (Hc i w eq_refl Hw).
Qed.

(** C8, as the code has it.  [forward] checks no shape before its loop.
    Whatever the input and the parameter list, either every layer is
    accepted and [forward] returns; or [forward] raises the tensor library's
    RuntimeError and nothing else, at the first layer whose matrix product
    or bias sum the library refuses for the activation that reaches it, and
    by then the affine transforms of all the layers before it have been
    computed.  When the input and the weights are matrices and each bias is a
    vector with one entry per row of its weight, a weight that does not take
    the width the weight before it produces does make [forward] raise. *)
Theorem forward_fails_at_first_refused_layer (x : tensor F) (params : list (tensor F)) :
  let n := length params / 3 in
  let ws := slice 0 n params in
  let bs := slice n (2 * n) params in
  match forward_run x params with
  | (st, None) =>
      (exists c, forward x params = Ok (c, input st))
      /\ forward_progress ws bs n st
  | (st, Some e) =>
      e = RuntimeError
      /\ forward x params = Raise RuntimeError
      /\ length (z_values st) < n
      /\ forward_progress ws bs (length (z_values st)) st
      /\ layer_refused ws bs (length (z_values st)) (input st)
  end
  /\ (typed_layers ws bs -> (exists N k, tshape x = Matrix N k) ->
      consecutive_mismatch ws -> forward x params = Raise RuntimeError).
Proof.
  intros n ws bs.
  pose proof (Nat.div_mod_eq (length params) 3) as Hdm. fold n in Hdm.
  assert (length ws = n) as Hw.
  { unfold ws. rewrite slice_0, length_take. lia. }
  assert (length bs = n) as Hb.
  { unfold bs, slice. rewrite length_take, length_drop. lia. }
  set (init := {| input := x; z_values := []; activations := [x] |}).
  assert (forward_progress ws bs 0 init) as Hinit.
  { constructor; simpl; try done. intros i Hi. lia. }
  pose proof (forward_loop_progress ws bs n 0 init) as Hloop.
  rewrite Hw in Hloop. specialize (Hloop eq_refl Hb Hinit).
  assert (forward_run x params = forward_loop ws bs (seq 0 n) init) as Hrun.
  { unfold forward_run. fold n. fold ws. fold bs. by rewrite Hw. }
  assert (forall st, forward_loop ws bs (seq 0 n) init = (st, None) ->
            activations st !! 0 = Some x) as Hfirst.
  { intros st Hst.
    assert (forall r k st0 st1,
              activations st0 !! 0 = Some x ->
              forward_loop ws bs (seq k r) st0 = (st1, None) ->
              activations st1 !! 0 = Some x) as Hgen.
    { induction r as [|r IH]; intros k st0 st1 H0 Hl; simpl in Hl.
      - by simplify_eq.
      - destruct (forward_body ws bs k st0) as [st'|e] eqn:Hbody; [|done].
        apply (IH (S k) st' st1); [|done].
        unfold forward_body in Hbody.
        destruct (affine ws bs k (input st0)) as [z|e]; simpl in Hbody; [|done].
        simplify_eq. simpl. by apply lookup_app_l_Some. }
    by apply (Hgen n 0 init st). }
  unfold forward. rewrite Hrun.
  destruct (forward_loop ws bs (seq 0 n) init) as [st [e|]] eqn:Hl.
  - destruct Hloop as (-> & Hlt & Hp & Href). split; [done|]. done.
  - split; [split; [by eexists | done]|].
    intros Hty Hx (i & w & w' & Hwi & Hwi' & Hne). exfalso.
    assert (S i < n) as Hi by (apply lookup_lt_Some in Hwi'; lia).
    destruct (typed_activation_width ws bs x n st Hty Hx (Hfirst st eq_refl) Hloop
                i w ltac:(lia) Hwi) as (a & N & Ha & Hsa).
    destruct (fp_layers _ _ _ _ Hloop (S i) Hi)
      as (a' & w1 & b & m & z & Ha' & Hw1 & _ & Hm & _).
    rewrite Ha in Ha'. rewrite Hwi' in Hw1. simplify_eq.
    destruct (Hty (S i) w1 Hwi') as (b' & r & c & _ & Hsw & _).
    assert (tshape (t w1) = Matrix c r) as Htw by (unfold t; by rewrite Hsw).
    destruct (matmul_Ok_matrix _ _ _ _ _ _ _ Hsa Htw Hm) as [Heq _].
    apply Hne. rewrite Hsw. simpl. done.
Qed.

End Failures.

Section Construction.
Context {F G : Type} `{Scalar F} `{Init F G}.
Import FeedbackAlignmentMLP.

(** C7, as the code has it.  Constructing the network with an empty
    [hidden_sizes] fails at construction time, with the IndexError that
    [hidden_sizes[-1]] raises: the caller gets no model.  [__init__] is left
    when the weight and the bias of the output layer have been appended to
    the object it was building and no feedback matrix has. *)
Theorem new_empty_hidden_sizes (input_size output_size : nat) (g : G) :
  new (F := F) input_size [] output_size g = Raise IndexError
  /\ exists s g',
       __init__ (F := F) input_size [] output_size g = (s, g', Some IndexError)
       /\ length (weights s) = 1 /\ length (biases s) = 1
       /\ feedback_matrices s = [].
Proof. split; [reflexivity|]. eexists _, _. repeat split. Qed.

End Construction.

(** C7 as stated fails: with sizes 4, [] and 2 the constructor does not
    raise a ConfigurationError. *)
Lemma new_empty_not_ConfigurationError :
  FeedbackAlignmentMLP.new (F := Z) 4 [] 2 0 <> Raise ConfigurationError.
Proof. vm_compute. discriminate. Qed.

(** C8 as stated fails: it is not the case that every mismatch between
    consecutive layers makes [forward] fail before any layer's affine
    transform has been computed.  With a second weight that expects rows of
    width three after a first layer of width two, [forward] raises only
    after the first pre-activation has been computed. *)
Lemma forward_mismatch_after_arithmetic :
  ~ (forall (x : tensor Z) (params : list (tensor Z)),
       consecutive_mismatch (slice 0 (length params / 3) params) ->
       exists st e,
         FeedbackAlignmentFunction.forward_run x params = (st, Some e)
         /\ FeedbackAlignmentFunction.z_values st = []).
Proof.
  intros Hall.
  destruct (Hall Sample.x (Sample.ws_bad ++ Sample.bs ++ Sample.fs))
    as (st & e & Hrun & Hz).
  - exists 0, (ztensor (Matrix 2 2) [1; 0; 0; -1]%Z),
      (ztensor (Matrix 1 3) [3; 4; 5]%Z).
    repeat split. simpl. lia.
  - rewrite sample_forward_bad in Hrun. by simplify_eq.
Qed.

(** A bias of three entries under a weight of one row: broadcasting widens
    the pre-activation, the next weight takes width three, nothing is raised. *)
Example broadcast_absorbs_mismatch :
  let ws := [ztensor (Matrix 1 2) [1; 1]%Z; ztensor (Matrix 1 3) [1; 1; 1]%Z] in
  let bs := [ztensor (Vector 3) [1; 2; 3]%Z; ztensor (Vector 1) [0]%Z] in
  consecutive_mismatch ws
  /\ FeedbackAlignmentFunction.apply Sample.x (ws ++ bs ++ Sample.fs)
     = Ok (ztensor (Matrix 1 1) [15]%Z).
Proof.
  split; [|reflexivity].
  eexists 0, _, _. repeat split. simpl. lia.
Qed.

(** ** The feedback matrices over the life of a model *)

Section Lifetime.
Context {F G : Type} `{Scalar F} `{Init F G} `{Optimizer F}.
Import FeedbackAlignmentMLP Training.

Lemma add_hidden_frozen (hs : list nat) (s s' : self F) (p p' : nat) (g g' : G) :
  fold_left add_hidden hs (s, p, g) = (s', p', g') ->
  Forall frozen (feedback_matrices s) -> Forall frozen (feedback_matrices s').
Proof.
  revert s p g. induction hs as [|h hs IH]; intros s p g Hfold Hfr; simpl in Hfold.
  - by simplify_eq.
  - destruct (Init.randn (Matrix h p) g) as [f g1] eqn:Hr.
    eapply IH; [exact Hfold|]. simpl.
    apply Forall_app. split; [done|]. by constructor.
Qed.

Lemma reset_parameters_feedback (s : self F) (g : G) :
  feedback_matrices (reset_parameters s g).1.1 = feedback_matrices s.
Proof.
  unfold reset_parameters.
  destruct (reset_weights (weights s) g) as [[ws g1] [e|]]; done.
Qed.

Lemma new_frozen (input_size : nat) (hidden_sizes : list nat) (output_size : nat)
  (g g' : G) (s : self F) :
  new input_size hidden_sizes output_size g = Ok (s, g') ->
  Forall frozen (feedback_matrices s).
Proof.
  unfold new, __init__.
  destruct (fold_left add_hidden hidden_sizes _) as [[s1 p1] g1] eqn:Hfold.
  apply add_hidden_frozen in Hfold; [|by constructor].
  destruct (last hidden_sizes) as [h|]; [|done].
  destruct (Init.randn (Matrix output_size h) g1) as [f g2].
  match goal with
  | |- context [reset_parameters ?s3 g2] =>
      pose proof (reset_parameters_feedback s3 g2) as Hreset;
      destruct (reset_parameters s3 g2) as [[s4 g4] [e|]]
  end; [done|].
  intros E. simplify_eq. simpl in Hreset. rewrite Hreset. simpl.
  apply Forall_app. split; [done|]. by constructor.
Qed.

(** The loop of [backward] stores into its two lists and never resizes them. *)
Lemma backward_loop_lengths (fs zs acts : list (tensor F)) (idxs : list nat)
  (st st' : FeedbackAlignmentFunction.grads F) :
  FeedbackAlignmentFunction.backward_loop fs zs acts idxs st = Ok st' ->
  length (FeedbackAlignmentFunction.grad_weights st')
  = length (FeedbackAlignmentFunction.grad_weights st)
  /\ length (FeedbackAlignmentFunction.grad_biases st')
     = length (FeedbackAlignmentFunction.grad_biases st).
Proof.
  revert st. induction idxs as [|i idxs IH]; intros st Hloop; simpl in Hloop.
  - by simplify_eq.
  - destruct (FeedbackAlignmentFunction.backward_body fs zs acts i st)
      as [st1|e] eqn:Hbody; simpl in Hloop; [|done].
    destruct (IH st1 Hloop) as [Hw Hb]. rewrite Hw, Hb.
    unfold FeedbackAlignmentFunction.backward_body in Hbody.
    destruct (getitem acts i); simpl in Hbody; [|done].
    destruct (matmul _ _); simpl in Hbody; [|done].
    unfold setitem in Hbody.
    repeat case_decide; simpl in Hbody; try done.
    + destruct (FeedbackAlignmentFunction.propagate fs zs i _); simpl in Hbody; [|done].
      simplify_eq. simpl. by rewrite !length_insert.
    + simplify_eq. simpl. by rewrite !length_insert.
Qed.

(** Whatever the saved state, what [backward] returns ends with one [None]
    per feedback matrix, after one entry for the input and [num_layers]
    entries each for the weights and the biases. *)
Lemma backward_feedback_None (c : FeedbackAlignmentFunction.ctx F)
  (grad_output : tensor F) (out : list (option (tensor F))) :
  FeedbackAlignmentFunction.backward c grad_output = Ok out ->
  let n := FeedbackAlignmentFunction.num_layers c in
  let k := length (slice (2 * n) (3 * n) (FeedbackAlignmentFunction.saved_tensors c)) in
  length out = 1 + 2 * n + k
  /\ out !! 0 = Some None
  /\ drop (1 + 2 * n) out = replicate k None.
Proof.
  intros Hback n k. unfold FeedbackAlignmentFunction.backward in Hback.
  fold n in Hback. fold k in Hback.
  destruct (FeedbackAlignmentFunction.backward_loop _ _ _ _ _) as [st|e] eqn:Hloop;
    simpl in Hback; [|done].
  apply backward_loop_lengths in Hloop as [Hw Hb]. simpl in Hw, Hb.
  rewrite length_replicate in Hw, Hb.
  rewrite !contiguous_all in Hback. injection Hback as <-.
  repeat split.
  - simpl. rewrite !length_app, length_replicate. lia.
  - simpl. rewrite app_assoc. rewrite drop_app_length'; [done|].
    rewrite length_app. lia.
Qed.

(** A frozen parameter comes through the update as it was, whatever
    gradient is offered for it. *)
Lemma apply_gradient_frozen (p : parameter F) (g : option (tensor F)) :
  frozen p -> apply_gradient p g = p.
Proof. unfold frozen, apply_gradient. intros ->. by destruct g. Qed.

Lemma step_feedback (s s' : self F) (x : tensor F) (loss_grad : tensor F -> tensor F) :
  Forall frozen (feedback_matrices s) ->
  step s x loss_grad = Ok s' ->
  feedback_matrices s' = feedback_matrices s.
Proof.
  intros Hfr. unfold step.
  destruct (FeedbackAlignmentFunction.forward _ _) as [r|e]; simpl; [|done].
  destruct (FeedbackAlignmentFunction.backward _ _) as [gs|e]; simpl; [|done].
  case_decide as Hlen; [|done]. intros E. simplify_eq. simpl.
  assert (length (tail gs) = length (parameters s)) as Hlen'.
  { destruct gs; simpl in *; lia. }
  revert Hlen'. generalize (tail gs) as gs'. clear Hlen. intros gs' Hlen.
  unfold parameters in *. rewrite !length_app in Hlen.
  apply list_eq. intros i.
  rewrite lookup_drop, lookup_zip_with.
  rewrite app_assoc, lookup_app_r by (rewrite length_app; lia).
  rewrite length_app.
  replace (length (weights s) + length (biases s) + i
           - (length (weights s) + length (biases s))) with i by lia.
  destruct (feedback_matrices s !! i) as [p|] eqn:Hp; simpl; [|done].
  destruct (lookup_lt_is_Some_2 gs' (length (weights s) + length (biases s) + i))
    as [g Hg].
  { apply lookup_lt_Some in Hp. lia. }
  rewrite Hg. simpl. f_equal. apply apply_gradient_frozen.
  by eapply Forall_lookup_1.
Qed.

Lemma handle_feedback (s : self F) (g : G) (e : event) :
  Forall frozen (feedback_matrices s) ->
  feedback_matrices (handle (s, g) e).1 = feedback_matrices s.
Proof.
  intros Hfr. destruct e as [|x loss_grad]; simpl.
  - apply reset_parameters_feedback.
  - destruct (step s x loss_grad) as [s'|err] eqn:Hstep; simpl; [|done].
    by eapply step_feedback.
Qed.

Lemma lifetime_feedback (events : list event) (s : self F) (g : G) :
  Forall frozen (feedback_matrices s) ->
  feedback_matrices (lifetime s g events).1 = feedback_matrices s.
Proof.
  unfold lifetime. revert s g.
  induction events as [|e events IH]; intros s g Hfr; [done|].
  cbn [fold_left].
  pose proof (handle_feedback s g e Hfr) as Hh.
  destruct (handle (s, g) e) as [s1 g1]. cbn [fst] in Hh.
  rewrite <- Hh in Hfr. by rewrite (IH s1 g1 Hfr).
Qed.

(** C5.  Every feedback matrix is fixed for the life of the model.  The
    constructor builds each [F_i] with [requires_grad=False];
    [reset_parameters], on any model and whether or not it raises, leaves
    every [F_i] as it was; [backward], whenever it returns, returns [None]
    for every [F_i]; a training step that succeeds leaves every [F_i] as it
    was; and so does any sequence of calls to [reset_parameters] and
    training steps. *)
Theorem feedback_never_updates (input_size : nat) (hidden_sizes : list nat)
  (output_size : nat) (g g1 : G) (s : self F) :
  new input_size hidden_sizes output_size g = Ok (s, g1) ->
  Forall (fun p => requires_grad p = false) (feedback_matrices s)
  /\ (forall (s0 : self F) (g0 : G),
        feedback_matrices (reset_parameters s0 g0).1.1 = feedback_matrices s0)
  /\ (forall c grad_output out,
        FeedbackAlignmentFunction.backward c grad_output = Ok out ->
        let n := FeedbackAlignmentFunction.num_layers c in
        drop (1 + 2 * n) out
        = replicate
            (length (slice (2 * n) (3 * n) (FeedbackAlignmentFunction.saved_tensors c)))
            None)
  /\ (forall x loss_grad s',
        step s x loss_grad = Ok s' -> feedback_matrices s' = feedback_matrices s)
  /\ (forall events,
        feedback_matrices (lifetime s g1 events).1 = feedback_matrices s).
Proof.
  intros Hnew. pose proof (new_frozen _ _ _ _ _ _ Hnew) as Hfr.
  split; [exact Hfr|].
  split; [apply reset_parameters_feedback|].
  split; [intros c go out Hb; by apply (backward_feedback_None c go out Hb)|].
  split; [intros x lg s' Hs; by eapply step_feedback|].
  intros events. by apply lifetime_feedback.
Qed.

End Lifetime.

(** A training step on a freshly built model succeeds and moves the weights. *)
Example sample_step_moves_weights :
  exists s g s',
    FeedbackAlignmentMLP.new (F := Z) 2 [2] 1 0 = Ok (s, g)
    /\ Training.step s Sample.x (fun out => out) = Ok s'
    /\ FeedbackAlignmentMLP.weights s' <> FeedbackAlignmentMLP.weights s
    /\ FeedbackAlignmentMLP.feedback_matrices s'
       = FeedbackAlignmentMLP.feedback_matrices s.
Proof.
  eexists _, _, _. split; [reflexivity|]. split; [vm_compute; reflexivity|].
  split; [vm_compute; discriminate | reflexivity].
Qed.

(** The theorem for C5 at a model with one hidden layer, followed through a
    training step and a call to [reset_parameters]. *)
Lemma feedback_never_updates_witness :
  exists s g1,
    FeedbackAlignmentMLP.new (F := Z) 2 [2] 1 0 = Ok (s, g1)
    /\ FeedbackAlignmentMLP.feedback_matrices
         (Training.lifetime s g1
            [Training.Step Sample.x (fun out => out); Training.Reset]).1
       = FeedbackAlignmentMLP.feedback_matrices s.
Proof.
  destruct (FeedbackAlignmentMLP.new (F := Z) 2 [2] 1 0) as [[s g1]|e] eqn:Hnew;
    [|vm_compute in Hnew; discriminate].
  exists s, g1. split; [reflexivity|].
  destruct (feedback_never_updates _ _ _ _ _ _ Hnew) as (_ & _ & _ & _ & Hlife).
  apply Hlife.
Defined.

(** ** Networks as the constructor builds them *)

Section Built.
Context {F G : Type} `{Scalar F} `{Init F G}.
Import FeedbackAlignmentMLP.

Lemma length_draws (draw : G -> F * G) (n : nat) (g : G) :
  length (Init.draws draw n g).1 = n.
Proof.
  revert g. induction n as [|n IH]; intros g; simpl; [done|].
  destruct (draw g) as [x g1]. specialize (IH g1).
  destruct (Init.draws draw n g1) as [xs g2]. simpl in *. by rewrite IH.
Qed.

Lemma Tensor_has_shape (s : shape) : has_shape (Init.Tensor (F := F) s) s.
Proof. split; [done|]. unfold wf. simpl. apply length_tabulate. Qed.

Lemma randn_has_shape (s : shape) (g : G) : has_shape (Init.randn (F := F) s g).1 s.
Proof.
  unfold Init.randn. pose proof (length_draws normal (numel s) g) as Hl.
  destruct (Init.draws normal (numel s) g) as [xs g']. by split.
Qed.

Lemma constant_has_shape (x : tensor F) (s : shape) :
  has_shape x s -> has_shape (Init.constant_ x) s.
Proof.
  intros [Hs _]. split; [done|]. unfold wf. simpl. by rewrite length_replicate.
Qed.

Lemma kaiming_uniform_matrix (x : tensor F) (r c : nat) (g : G) :
  has_shape x (Matrix r c) ->
  exists y g', Init.kaiming_uniform_ x g = Ok (y, g') /\ has_shape y (Matrix r c).
Proof.
  intros [Hs Hw]. unfold Init.kaiming_uniform_. rewrite Hs.
  case_decide.
  - exists x, g. by split.
  - pose proof (length_draws (kaiming c) (r * c) g) as Hl.
    destruct (Init.draws (kaiming c) (r * c) g) as [xs g'].
    exists (mkTensor (Matrix r c) xs), g'. by split.
Qed.

(** Widths added at the end leave the shapes of the layers before alone. *)
Lemma dim_app_l (dims : list nat) (h i : nat) :
  i < length dims -> dim (dims ++ [h]) i = dim dims i.
Proof. intros Hi. unfold dim. by rewrite app_nth1. Qed.

Lemma dim_app_last (dims : list nat) (h : nat) :
  dim (dims ++ [h]) (length dims) = h.
Proof. unfold dim. rewrite app_nth2 by lia. by rewrite Nat.sub_diag. Qed.

Lemma dim_last (dims : list nat) (p : nat) :
  last dims = Some p -> dim dims (length dims - 1) = p.
Proof.
  intros Hl. unfold dim. rewrite last_lookup in Hl.
  replace (length dims - 1) with (pred (length dims)) by lia.
  by apply nth_lookup_Some with (d := 0) in Hl.
Qed.

Lemma layered_snoc (shape_of shape_of' : nat -> shape) (n : nat)
  (l : list (tensor F)) (x : tensor F) :
  layered shape_of n l ->
  (forall i, i < n -> shape_of' i = shape_of i) ->
  has_shape x (shape_of' n) ->
  layered shape_of' (S n) (l ++ [x]).
Proof.
  intros [Hlen Hsh] Hagree Hx. split.
  - rewrite length_app. simpl. lia.
  - intros i y Hy. apply lookup_app_Some in Hy as [Hy | [Hge Hy]].
    + rewrite Hagree by (apply lookup_lt_Some in Hy; lia). by apply Hsh.
    + apply list_lookup_singleton_Some in Hy as [Hi <-].
      by replace i with n by lia.
Qed.

Lemma built_snoc (dims : list nat) (s : self F) (p h : nat) (w b f : parameter F) :
  built dims s -> last dims = Some p ->
  has_shape (data w) (Matrix h p) -> has_shape (data b) (Vector h) ->
  has_shape (data f) (Matrix h p) ->
  built (dims ++ [h])
    {| weights := weights s ++ [w]; biases := biases s ++ [b];
       feedback_matrices := feedback_matrices s ++ [f] |}.
Proof.
  intros (Hw & Hb & Hf) Hlast Hsw Hsb Hsf.
  assert (0 < length dims) as Hpos by (destruct dims; [done | simpl; lia]).
  pose proof (dim_last dims p Hlast) as Hp.
  unfold built. simpl. rewrite !map_app. simpl.
  assert (length (dims ++ [h]) - 1 = S (length dims - 1)) as ->
    by (rewrite length_app; simpl; lia).
  assert (forall i, i < length dims - 1 ->
            weight_shape (dims ++ [h]) i = weight_shape dims i) as Hwa.
  { intros i Hi. unfold weight_shape. by rewrite !dim_app_l by lia. }
  assert (forall i, i < length dims - 1 ->
            bias_shape (dims ++ [h]) i = bias_shape dims i) as Hba.
  { intros i Hi. unfold bias_shape. by rewrite !dim_app_l by lia. }
  assert (weight_shape (dims ++ [h]) (length dims - 1) = Matrix h p) as Hwn.
  { unfold weight_shape. replace (S (length dims - 1)) with (length dims) by lia.
    by rewrite dim_app_last, dim_app_l, Hp by lia. }
  assert (bias_shape (dims ++ [h]) (length dims - 1) = Vector h) as Hbn.
  { unfold bias_shape. replace (S (length dims - 1)) with (length dims) by lia.
    by rewrite dim_app_last. }
  split; [|split].
  - eapply layered_snoc; [exact Hw | done | by rewrite Hwn].
  - eapply layered_snoc; [exact Hb | done | by rewrite Hbn].
  - eapply layered_snoc; [exact Hf | done | by rewrite Hwn].
Qed.

Lemma add_hidden_built (hs dims : list nat) (s s' : self F) (p p' : nat) (g g' : G) :
  built dims s -> last dims = Some p ->
  fold_left add_hidden hs (s, p, g) = (s', p', g') ->
  built (dims ++ hs) s' /\ last (dims ++ hs) = Some p'.
Proof.
  revert dims s p g. induction hs as [|h hs IH]; intros dims s p g Hb Hl Hfold.
  - simpl in Hfold. simplify_eq. by rewrite app_nil_r.
  - simpl in Hfold.
    pose proof (randn_has_shape (Matrix h p) g) as Hr.
    destruct (Init.randn (Matrix h p) g) as [f g1]. simpl in Hr.
    replace (dims ++ h :: hs) with ((dims ++ [h]) ++ hs) by (by rewrite <- app_assoc).
    eapply IH; [| |exact Hfold].
    + apply (built_snoc dims s p h); try done; apply Tensor_has_shape.
    + apply last_snoc.
Qed.

(** [reset_parameters] goes through on matrices and keeps every shape. *)
Lemma reset_weights_matrices (ws : list (parameter F)) (g : G) :
  Forall (fun w => exists r c, has_shape (data w) (Matrix r c)) ws ->
  exists ws' g',
    reset_weights ws g = (ws', g', None)
    /\ Forall2 (fun w w' => forall s, has_shape (data w) s -> has_shape (data w') s)
         ws ws'.
Proof.
  revert g. induction ws as [|w ws IH]; intros g Hall.
  - exists [], g. by split.
  - apply Forall_cons in Hall as [(r & c & Hw) Hall]. simpl.
    destruct (kaiming_uniform_matrix (data w) r c g Hw) as (y & g1 & Hk & Hy).
    rewrite Hk. destruct (IH g1 Hall) as (ws' & g2 & Hr & Hf2). rewrite Hr.
    exists (set_data w y :: ws'), g2. split; [done|].
    constructor; [|done]. intros s Hs. simpl.
    destruct Hw as [Hw1 _]. destruct Hs as [Hs1 _].
    assert (s = Matrix r c) as -> by congruence. done.
Qed.

Lemma layered_Forall2 (shape_of : nat -> shape) (n : nat) (l l' : list (tensor F)) :
  layered shape_of n l ->
  Forall2 (fun x x' => forall s, has_shape x s -> has_shape x' s) l l' ->
  layered shape_of n l'.
Proof.
  intros [Hlen Hsh] Hf2. split.
  - by rewrite <- (Forall2_length _ _ _ Hf2).
  - intros i x' Hx'.
    destruct (Forall2_lookup_r _ _ _ _ _ Hf2 Hx') as (x & Hx & Hxx').
    apply Hxx'. by apply Hsh.
Qed.

Lemma reset_parameters_built (dims : list nat) (s : self F) (g : G) :
  built dims s ->
  exists s' g', reset_parameters s g = (s', g', None) /\ built dims s'.
Proof.
  intros (Hw & Hb & Hf). unfold reset_parameters.
  destruct (reset_weights_matrices (weights s) g) as (ws' & g' & Hr & Hf2).
  { apply Forall_lookup_2. intros i w Hi.
    exists (dim dims (S i)), (dim dims i).
    destruct Hw as [_ Hsh]. apply (Hsh i). by rewrite list_lookup_fmap, Hi. }
  rewrite Hr. eexists _, _. split; [done|].
  split; [|split]; simpl.
  - eapply layered_Forall2; [exact Hw|].
    apply Forall2_fmap. exact Hf2.
  - eapply layered_Forall2; [exact Hb|].
    apply Forall2_fmap, Forall2_fmap_r.
    apply Forall_Forall2_diag, Forall_forall. intros b _ s0 Hs. simpl.
    by apply constant_has_shape.
  - done.
Qed.

(** A configuration with at least one hidden layer is built without an
    exception, and the parameters built are shape-consistent for the widths
    [input_size, hidden_sizes..., output_size]. *)
Lemma new_consistent (input_size : nat) (hidden_sizes : list nat) (output_size : nat)
  (g : G) :
  hidden_sizes <> [] ->
  exists s g',
    new (F := F) input_size hidden_sizes output_size g = Ok (s, g')
    /\ consistent_params (input_size :: hidden_sizes ++ [output_size])
         (map data (weights s)) (map data (biases s))
         (map data (feedback_matrices s)).
Proof.
  intros Hne. unfold new, __init__.
  destruct (fold_left add_hidden hidden_sizes _) as [[s1 p1] g1] eqn:Hfold.
  assert (built (F := F) [input_size]
            {| weights := []; biases := []; feedback_matrices := [] |}) as Hb0.
  { split; [|split];
      (split; [done | intros i x Hx; simpl in Hx; by rewrite lookup_nil in Hx]). }
  destruct (add_hidden_built hidden_sizes [input_size] _ _ _ _ _ _ Hb0 eq_refl Hfold)
    as [Hb1 Hl1].
  simpl in Hb1, Hl1.
  assert (last hidden_sizes = Some p1) as Hlast.
  { destruct hidden_sizes as [|h hs]; [done|]. by rewrite last_cons_cons in Hl1. }
  rewrite Hlast.
  pose proof (randn_has_shape (Matrix output_size p1) g1) as Hr.
  destruct (Init.randn (Matrix output_size p1) g1) as [f g2]. simpl in Hr.
  match goal with
  | |- context [reset_parameters ?s3 g2] =>
      destruct (reset_parameters_built
                  ((input_size :: hidden_sizes) ++ [output_size]) s3 g2)
        as (s4 & g4 & Hreset & Hb4)
  end.
  { apply (built_snoc (input_size :: hidden_sizes) s1 p1 output_size);
      try done; apply Tensor_has_shape. }
  rewrite Hreset. exists s4, g4. split; [done|].
  destruct Hb4 as (Hw & Hb & Hf).
  constructor; try done. simpl. rewrite length_app. simpl. lia.
Qed.

End Built.

(** The scenario of the specification: sizes 4, [8, 6] and 2, a batch of
    three rows, and a [grad_output] of ones. *)
Example scenario_shapes :
  let x := ztensor (Matrix 3 4) [1; 0; -1; 2; 0; 1; 1; -2; 3; -1; 0; 1]%Z in
  let ones := ztensor (Matrix 3 2) [1; 1; 1; 1; 1; 1]%Z in
  exists s g c out gs,
    FeedbackAlignmentMLP.new (F := Z) 4 [8; 6] 2 0 = Ok (s, g)
    /\ FeedbackAlignmentFunction.forward x
         (map FeedbackAlignmentMLP.data (FeedbackAlignmentMLP.parameters s))
       = Ok (c, out)
    /\ tshape out = Matrix 3 2
    /\ FeedbackAlignmentFunction.backward c ones = Ok gs
    /\ map (option_map tshape) gs
       = [ None;
           Some (Matrix 8 4); Some (Matrix 6 8); Some (Matrix 2 6);
           Some (Vector 8); Some (Vector 6); Some (Vector 2);
           None; None; None ].
Proof.
  intros x ones. eexists _, _, _, _, _.
  split; [vm_compute; reflexivity|].
  split; [vm_compute; reflexivity|].
  split; [reflexivity|].
  split; [vm_compute; reflexivity|].
  vm_compute. reflexivity.
Qed.

(** * Further properties of the code *)

(** ** What the constructor builds *)

Section Constructed.
Context {F G : Type} `{Scalar F} `{Init F G}.
Import FeedbackAlignmentMLP.

(** X1.  With at least one hidden size, the constructor returns a model:
    it holds [len(hidden_sizes) + 1] weights, as many biases and as many
    feedback matrices, and with [dims] the widths
    [input_size, hidden_sizes..., output_size], the weight and the feedback
    matrix of layer [i] have shape [(dims[i+1], dims[i])] and its bias has
    shape [(dims[i+1])]. *)
Theorem construction_builds_layers (input_size : nat) (hidden_sizes : list nat)
  (output_size : nat) (g : G) :
  hidden_sizes <> [] ->
  exists s g',
    new (F := F) input_size hidden_sizes output_size g = Ok (s, g')
    /\ length (weights s) = S (length hidden_sizes)
    /\ length (biases s) = S (length hidden_sizes)
    /\ length (feedback_matrices s) = S (length hidden_sizes)
    /\ forall i, i < S (length hidden_sizes) ->
         let dims := input_size :: hidden_sizes ++ [output_size] in
         exists w b f,
           weights s !! i = Some w /\ biases s !! i = Some b
           /\ feedback_matrices s !! i = Some f
           /\ has_shape (data w) (Matrix (dim dims (S i)) (dim dims i))
           /\ has_shape (data b) (Vector (dim dims (S i)))
           /\ has_shape (data f) (Matrix (dim dims (S i)) (dim dims i)).
Proof.
  intros Hne.
  destruct (new_consistent input_size hidden_sizes output_size g Hne)
    as (s & g' & Hnew & [_ [Hwl Hws] [Hbl Hbs] [Hfl Hfs]]).
  assert (length (input_size :: hidden_sizes ++ [output_size]) - 1
          = S (length hidden_sizes)) as HL.
  { simpl. rewrite length_app. simpl. lia. }
  rewrite HL, length_map in Hwl, Hbl, Hfl.
  exists s, g'. split; [done|]. split; [done|]. split; [done|]. split; [done|].
  intros i Hi dims.
  destruct (lookup_lt_is_Some_2 (weights s) i) as [w Hw]; [lia|].
  destruct (lookup_lt_is_Some_2 (biases s) i) as [b Hb]; [lia|].
  destruct (lookup_lt_is_Some_2 (feedback_matrices s) i) as [f Hf]; [lia|].
  exists w, b, f. split; [done|]. split; [done|]. split; [done|].
  split; [|split].
  - apply (Hws i). by rewrite list_lookup_fmap, Hw.
  - apply (Hbs i). by rewrite list_lookup_fmap, Hb.
  - apply (Hfs i). by rewrite list_lookup_fmap, Hf.
Qed.

Lemma add_hidden_trainable (hs : list nat) (s s' : self F) (p p' : nat) (g g' : G) :
  fold_left add_hidden hs (s, p, g) = (s', p', g') ->
  Forall (fun q => requires_grad q = true) (weights s) ->
  Forall (fun q => requires_grad q = true) (biases s) ->
  Forall (fun q => requires_grad q = true) (weights s')
  /\ Forall (fun q => requires_grad q = true) (biases s').
Proof.
  revert s p g. induction hs as [|h hs IH]; intros s p g Hfold Hw Hb; simpl in Hfold.
  - by simplify_eq.
  - destruct (Init.randn (Matrix h p) g) as [f g1].
    eapply IH; [exact Hfold | |]; simpl;
      (apply Forall_app; split; [done | by constructor]).
Qed.

(** Redrawing the weights changes no flag, whether or not it goes through. *)
Lemma reset_weights_flags (ws ws' : list (parameter F)) (g g' : G) (e : option exn) :
  reset_weights ws g = (ws', g', e) ->
  Forall2 (fun w w' => requires_grad w' = requires_grad w) ws ws'.
Proof.
  revert ws' g g' e. induction ws as [|w ws IH]; intros ws' g g' e Hr; simpl in Hr.
  - simplify_eq. constructor.
  - destruct (Init.kaiming_uniform_ (data w) g) as [[x g1]|err].
    + destruct (reset_weights ws g1) as [[rest g2] e2] eqn:Hrest.
      simplify_eq. constructor; [done|]. by eapply IH.
    + simplify_eq. by apply Forall_Forall2_diag, Forall_true.
Qed.

Lemma reset_parameters_flags (s s' : self F) (g g' : G) (e : option exn) :
  reset_parameters s g = (s', g', e) ->
  Forall2 (fun w w' => requires_grad w' = requires_grad w) (weights s) (weights s')
  /\ Forall2 (fun b b' => requires_grad b' = requires_grad b) (biases s) (biases s').
Proof.
  unfold reset_parameters.
  destruct (reset_weights (weights s) g) as [[ws g1] e1] eqn:Hr.
  apply reset_weights_flags in Hr.
  destruct e1 as [err|]; intros E; simplify_eq; simpl; (split; [done|]).
  - by apply Forall_Forall2_diag, Forall_true.
  - apply Forall2_fmap_r, Forall_Forall2_diag, Forall_true. done.
Qed.

(** When [reset_parameters] returns, every bias is filled with zero. *)
Lemma reset_parameters_zero_biases (s s' : self F) (g g' : G) :
  reset_parameters s g = (s', g', None) ->
  Forall (fun b => tdata (data b) = replicate (numel (tshape (data b))) fzero)
    (biases s').
Proof.
  unfold reset_parameters.
  destruct (reset_weights (weights s) g) as [[ws g1] [err|]]; intros E; simplify_eq.
  simpl. apply Forall_fmap, Forall_true. done.
Qed.

(** X2.  In a model the constructor returns, every weight and every bias
    requires a gradient, no feedback matrix does, and every bias holds
    zeros only. *)
Theorem construction_flags_and_biases (input_size : nat) (hidden_sizes : list nat)
  (output_size : nat) (g g' : G) (s : self F) :
  new input_size hidden_sizes output_size g = Ok (s, g') ->
  Forall (fun w => requires_grad w = true) (weights s)
  /\ Forall (fun b => requires_grad b = true
                      /\ tdata (data b) = replicate (numel (tshape (data b))) fzero)
       (biases s)
  /\ Forall (fun f => requires_grad f = false) (feedback_matrices s).
Proof.
  intros Hnew. pose proof (new_frozen _ _ _ _ _ _ Hnew) as Hfr.
  unfold new, __init__ in Hnew.
  destruct (fold_left add_hidden hidden_sizes _) as [[s1 p1] g1] eqn:Hfold.
  apply add_hidden_trainable in Hfold as [Hw1 Hb1]; [|by constructor..].
  destruct (last hidden_sizes) as [h|]; [|done].
  destruct (Init.randn (Matrix output_size h) g1) as [f g2].
  match type of Hnew with
  | context [reset_parameters ?s3 g2] =>
      destruct (reset_parameters s3 g2) as [[s4 g4] [e|]] eqn:Hreset; [done|]
  end.
  simplify_eq.
  pose proof (reset_parameters_zero_biases _ _ _ _ Hreset) as Hz.
  apply reset_parameters_flags in Hreset as [Hfw Hfb]. simpl in Hfw, Hfb.
  split; [|split; [|exact Hfr]].
  - apply Forall_lookup_2. intros i w Hw.
    destruct (Forall2_lookup_r _ _ _ _ _ Hfw Hw) as (w0 & Hw0 & ->).
    assert (Forall (fun q : parameter F => requires_grad q = true)
              (weights s1
               ++ [mkParameter (Init.Tensor (Matrix output_size p1)) true]))
      as Hall by (apply Forall_app; split; [done | by constructor]).
    by apply (Forall_lookup_1 _ _ _ _ Hall Hw0).
  - apply Forall_lookup_2. intros i b Hb. split.
    + destruct (Forall2_lookup_r _ _ _ _ _ Hfb Hb) as (b0 & Hb0 & ->).
      assert (Forall (fun q : parameter F => requires_grad q = true)
                (biases s1 ++ [mkParameter (Init.Tensor (Vector output_size)) true]))
        as Hall by (apply Forall_app; split; [done | by constructor]).
      by apply (Forall_lookup_1 _ _ _ _ Hall Hb0).
    + by apply (Forall_lookup_1 _ _ _ _ Hz Hb).
Qed.

End Constructed.

(** ** Forward and backward together *)

Section Pipeline.
Context {F : Type} `{Scalar F}.
Import FeedbackAlignmentFunction.
Implicit Types (ws bs fs zs acts : list (tensor F)).

(** What [forward] saves on shape-consistent parameters is a
    shape-consistent saved state. *)
Lemma forward_saves_consistent (N : nat) (dims : list nat) ws bs fs (x : tensor F) :
  consistent_params dims ws bs fs ->
  has_shape x (Matrix N (dim dims 0)) ->
  exists zs acts out,
    forward x (ws ++ bs ++ fs)
    = Ok (mkCtx (ws ++ bs ++ fs ++ zs ++ acts) (length dims - 1), out)
    /\ consistent_saved N dims ws bs fs zs acts
    /\ acts !! (length dims - 1) = Some out
    /\ has_shape out (Matrix N (dim dims (length dims - 1))).
Proof.
  intros Hcons Hx.
  destruct (forward_consistent N dims ws bs fs x Hcons Hx) as (st & _ & Hfwd & Hinv).
  exists (z_values st), (activations st), (input st).
  pose proof (cp_layers _ _ _ _ Hcons) as HL.
  split; [done|]. split; [|split].
  - constructor; [done | |].
    + split; [by eapply fi_z_length | by eapply fi_z_shapes].
    + split; [|by eapply fi_act_shapes].
      rewrite (fi_act_length _ _ _ _ _ _ _ Hinv). lia.
  - by eapply fi_input.
  - apply (fi_act_shapes _ _ _ _ _ _ _ Hinv (length dims - 1)).
    by eapply fi_input.
Qed.

(** The entries [backward] returns on a shape-consistent saved state, by
    position. *)
Lemma backward_entries (N : nat) (dims : list nat) ws bs fs zs acts
  (grad_output : tensor F) :
  consistent_saved N dims ws bs fs zs acts ->
  has_shape grad_output (Matrix N (dim dims (length dims - 1))) ->
  exists gs,
    backward (mkCtx (ws ++ bs ++ fs ++ zs ++ acts) (length dims - 1)) grad_output = Ok gs
    /\ length gs = 1 + 3 * (length dims - 1)
    /\ (forall i w, ws !! i = Some w ->
          exists gw, gs !! (1 + i) = Some (Some gw) /\ has_shape gw (tshape w))
    /\ (forall i b, bs !! i = Some b ->
          exists gb, gs !! (1 + (length dims - 1) + i) = Some (Some gb)
                     /\ has_shape gb (tshape b))
    /\ (forall i, i < length dims - 1 ->
          gs !! (1 + 2 * (length dims - 1) + i) = Some None).
Proof.
  intros Hcons Hgo.
  destruct (backward_consistent N dims ws bs fs zs acts grad_output Hcons Hgo)
    as (st & ds & Hback & Hpost).
  pose proof Hcons as [[HL [Hwl Hwsh] [Hbl Hbsh] [Hfl _]] _ _].
  set (L := length dims - 1) in *.
  assert (length (grad_weights st) = L) as Hgwl.
  { rewrite (bp_gw_length _ _ _ _ _ _ _ _ _ Hpost). simpl. apply length_replicate. }
  assert (length (grad_biases st) = L) as Hgbl.
  { rewrite (bp_gb_length _ _ _ _ _ _ _ _ _ Hpost). simpl. apply length_replicate. }
  eexists. split; [exact Hback|].
  split. { simpl. rewrite !length_app, length_replicate. lia. }
  split; [|split].
  - intros i w Hw.
    assert (i < L) as Hi by (apply lookup_lt_Some in Hw; lia).
    destruct (bp_layers _ _ _ _ _ _ _ _ _ Hpost i Hi) as (d & a & gw & _ & _ & _ & Hgw & _).
    exists gw. split; [simpl; by apply lookup_app_l_Some|].
    destruct (Hwsh i w Hw) as [-> _].
    by apply (bp_gw_shapes _ _ _ _ _ _ _ _ _ Hpost i gw Hi Hgw).
  - intros i b Hb.
    assert (i < L) as Hi by (apply lookup_lt_Some in Hb; lia).
    destruct (bp_layers _ _ _ _ _ _ _ _ _ Hpost i Hi) as (d & a & gw & _ & _ & _ & _ & Hgb).
    exists (sum0 d). split.
    { simpl. rewrite lookup_app_r by lia.
      replace (L + i - length (grad_weights st)) with i by lia.
      by apply lookup_app_l_Some. }
    destruct (Hbsh i b Hb) as [-> _].
    by apply (bp_gb_shapes _ _ _ _ _ _ _ _ _ Hpost i _ Hi Hgb).
  - intros i Hi. simpl. rewrite lookup_app_r by lia. rewrite lookup_app_r by lia.
    apply lookup_replicate. split; [done | lia].
Qed.

(** X3.  On shape-consistent parameters and an input of [N] rows,
    [forward] returns an output of [N] rows of the last width, and
    [backward], run on what that [forward] saved with any [grad_output] of
    the shape of the output, returns too: [1 + 3 L] entries, each weight and
    each bias answered by a tensor of its own shape, each feedback matrix by
    [None]. *)
Theorem forward_then_backward (N : nat) (dims : list nat) ws bs fs
  (x grad_output : tensor F) :
  let L := length dims - 1 in
  consistent_params dims ws bs fs ->
  has_shape x (Matrix N (dim dims 0)) ->
  has_shape grad_output (Matrix N (dim dims L)) ->
  exists c out gs,
    forward x (ws ++ bs ++ fs) = Ok (c, out)
    /\ has_shape out (Matrix N (dim dims L))
    /\ backward c grad_output = Ok gs
    /\ length gs = 1 + 3 * L
    /\ (forall i w, ws !! i = Some w ->
          exists gw, gs !! (1 + i) = Some (Some gw) /\ has_shape gw (tshape w))
    /\ (forall i b, bs !! i = Some b ->
          exists gb, gs !! (1 + L + i) = Some (Some gb) /\ has_shape gb (tshape b))
    /\ (forall i, i < L -> gs !! (1 + 2 * L + i) = Some None).
Proof.
  intros L Hcons Hx Hgo.
  destruct (forward_saves_consistent N dims ws bs fs x Hcons Hx)
    as (zs & acts & out & Hfwd & Hsaved & _ & Hout).
  destruct (backward_entries N dims ws bs fs zs acts grad_output Hsaved Hgo)
    as (gs & Hback & Hlen & Hw & Hb & Hf).
  exists (mkCtx (ws ++ bs ++ fs ++ zs ++ acts) L), out, gs.
  split; [exact Hfwd|]. split; [exact Hout|]. split; [exact Hback|].
  split; [exact Hlen|]. split; [exact Hw|]. split; [exact Hb | exact Hf].
Qed.

End Pipeline.

Section ConstructedRuns.
Context {F G : Type} `{Scalar F} `{Init F G}.
Import FeedbackAlignmentMLP.

(** X4.  A model built with at least one hidden size runs: on any input of
    shape [(N, input_size)] its [forward] returns an output of shape
    [(N, output_size)], and [backward] on what was saved, with any
    [grad_output] of that shape, returns for each weight and each bias of
    the model a tensor of the shape of that parameter and for each feedback
    matrix [None]. *)
Theorem constructed_model_runs (N input_size : nat) (hidden_sizes : list nat)
  (output_size : nat) (g : G) (x grad_output : tensor F) :
  let L := S (length hidden_sizes) in
  hidden_sizes <> [] ->
  has_shape x (Matrix N input_size) ->
  has_shape grad_output (Matrix N output_size) ->
  exists s g' c out gs,
    new input_size hidden_sizes output_size g = Ok (s, g')
    /\ forward s x = Ok out
    /\ has_shape out (Matrix N output_size)
    /\ FeedbackAlignmentFunction.forward x (map data (parameters s)) = Ok (c, out)
    /\ FeedbackAlignmentFunction.backward c grad_output = Ok gs
    /\ (forall i w, weights s !! i = Some w ->
          exists gw, gs !! (1 + i) = Some (Some gw)
                     /\ has_shape gw (tshape (data w)))
    /\ (forall i b, biases s !! i = Some b ->
          exists gb, gs !! (1 + L + i) = Some (Some gb)
                     /\ has_shape gb (tshape (data b)))
    /\ (forall i f, feedback_matrices s !! i = Some f ->
          gs !! (1 + 2 * L + i) = Some None).
Proof.
  intros L Hne Hx Hgo.
  destruct (new_consistent input_size hidden_sizes output_size g Hne)
    as (s & g' & Hnew & Hcons).
  set (dims := input_size :: hidden_sizes ++ [output_size]) in *.
  assert (length dims - 1 = L) as HL.
  { unfold dims, L. simpl. rewrite length_app. simpl. lia. }
  assert (dim dims (length dims - 1) = output_size) as Hlast.
  { rewrite HL. apply dim_output. }
  destruct (forward_saves_consistent N dims _ _ _ x Hcons Hx)
    as (zs & acts & out & Hfwd & Hsaved & _ & Hout).
  rewrite Hlast in Hout.
  destruct (backward_entries N dims _ _ _ zs acts grad_output Hsaved)
    as (gs & Hback & Hlen & Hw & Hb & Hf); [by rewrite Hlast|].
  rewrite HL in Hfwd, Hback, Hb, Hf.
  assert (FeedbackAlignmentFunction.forward x (map data (parameters s))
          = Ok (FeedbackAlignmentFunction.mkCtx
                  (map data (weights s) ++ map data (biases s)
                   ++ map data (feedback_matrices s) ++ zs ++ acts) L, out)) as Hfwd'.
  { unfold parameters. by rewrite !map_app. }
  eexists s, g', _, out, gs.
  split; [done|]. split.
  { unfold forward, FeedbackAlignmentFunction.apply. by rewrite Hfwd'. }
  split; [done|]. split; [exact Hfwd'|]. split; [done|].
  split; [|split].
  - intros i w Hwi. apply (Hw i (data w)). by rewrite list_lookup_fmap, Hwi.
  - intros i b Hbi. apply (Hb i (data b)). by rewrite list_lookup_fmap, Hbi.
  - intros i f Hfi. apply Hf.
    destruct Hcons as [_ _ _ [Hfl _]]. rewrite length_map, HL in Hfl.
    apply lookup_lt_Some in Hfi. lia.
Qed.

End ConstructedRuns.

(** ** What is saved, what is read, what can be raised *)

Section SavedState.
Context {F : Type} `{Scalar F}.
Import FeedbackAlignmentFunction.
Implicit Types (ws bs fs zs acts : list (tensor F)).

Lemma forward_loop_first ws bs (x : tensor F) (idxs : list nat) (st st' : locals F)
  (e : option exn) :
  activations st !! 0 = Some x ->
  forward_loop ws bs idxs st = (st', e) ->
  activations st' !! 0 = Some x.
Proof.
  revert st. induction idxs as [|i idxs IH]; intros st H0 Hl; simpl in Hl.
  - by simplify_eq.
  - destruct (forward_body ws bs i st) as [st1|err] eqn:Hbody; [|by simplify_eq].
    apply (IH st1); [|done].
    unfold forward_body in Hbody.
    destruct (affine ws bs i (input st)) as [z|err]; simpl in Hbody; [|done].
    simplify_eq. simpl. by apply lookup_app_l_Some.
Qed.

(** The lengths of the three thirds of any parameter list. *)
Lemma thirds_lengths (params : list (tensor F)) :
  let n := length params / 3 in
  length (slice 0 n params) = n
  /\ length (slice n (2 * n) params) = n
  /\ length (slice (2 * n) (3 * n) params) = n.
Proof.
  intros n.
  pose proof (Nat.div_mod_eq (length params) 3) as Hdm. fold n in Hdm.
  unfold slice. rewrite !length_take, !length_drop. lia.
Qed.

(** What a [forward] that returns has put on the context. *)
Lemma forward_saved (x : tensor F) (params : list (tensor F)) (c : ctx F)
  (out : tensor F) :
  let n := length params / 3 in
  let ws := slice 0 n params in
  let bs := slice n (2 * n) params in
  let fs := slice (2 * n) (3 * n) params in
  forward x params = Ok (c, out) ->
  exists st,
    c = mkCtx (ws ++ bs ++ fs ++ z_values st ++ activations st) n
    /\ out = input st
    /\ forward_progress ws bs n st
    /\ activations st !! 0 = Some x.
Proof.
  intros n ws bs fs Hfwd.
  destruct (thirds_lengths params) as (Hw & Hb & Hf).
  fold n in Hw, Hb, Hf. fold ws in Hw. fold bs in Hb. fold fs in Hf.
  set (init := {| input := x; z_values := []; activations := [x] |}).
  assert (forward_progress ws bs 0 init) as Hinit.
  { constructor; simpl; try done. intros i Hi. lia. }
  pose proof (forward_loop_progress ws bs n 0 init) as Hloop.
  rewrite Hw in Hloop. specialize (Hloop eq_refl Hb Hinit).
  unfold forward, forward_run in Hfwd.
  fold n in Hfwd. fold ws in Hfwd. fold bs in Hfwd. fold fs in Hfwd.
  rewrite Hw in Hfwd. fold init in Hfwd.
  destruct (forward_loop ws bs (seq 0 n) init) as [st [e|]] eqn:Hl; [done|].
  pose proof (forward_loop_first ws bs x _ init st None eq_refl Hl) as H0.
  injection Hfwd as <- <-. by exists st.
Qed.

(** X5.  What [backward] slices out of the saved tensors is what [forward]
    put there.  When [forward] returns, with [n = len(params) // 3]: the
    context holds [n] as its layer count and [5 n + 1] tensors; the first
    three runs of [n] are the weights, biases and feedback matrices as they
    were passed; the next [n] are the pre-activations and the remaining
    [n + 1] the activations, the first of them the input and the last the
    value returned; and every layer's equations hold between them. *)
Theorem saved_state_round_trip (x : tensor F) (params : list (tensor F))
  (c : ctx F) (out : tensor F) :
  let n := length params / 3 in
  forward x params = Ok (c, out) ->
  let saved := saved_tensors c in
  num_layers c = n
  /\ length saved = 5 * n + 1
  /\ slice 0 n saved = slice 0 n params
  /\ slice n (2 * n) saved = slice n (2 * n) params
  /\ slice (2 * n) (3 * n) saved = slice (2 * n) (3 * n) params
  /\ length (slice (3 * n) (4 * n) saved) = n
  /\ length (drop (4 * n) saved) = S n
  /\ drop (4 * n) saved !! 0 = Some x
  /\ drop (4 * n) saved !! n = Some out
  /\ forall i, i < n ->
       forward_layer n (slice 0 n params) (slice n (2 * n) params)
         (slice (3 * n) (4 * n) saved) (drop (4 * n) saved) i.
Proof.
  intros n Hfwd saved.
  destruct (forward_saved x params c out Hfwd) as (st & Hc & Hout & Hp & H0).
  fold n in Hc, Hp.
  destruct (thirds_lengths params) as (Hw & Hb & Hf). fold n in Hw, Hb, Hf.
  revert Hc Hp Hw Hb Hf.
  generalize (slice 0 n params) as ws.
  generalize (slice n (2 * n) params) as bs.
  generalize (slice (2 * n) (3 * n) params) as fs.
  intros fs bs ws Hc Hp Hw Hb Hf.
  pose proof (fp_z_length _ _ _ _ Hp) as Hzl.
  pose proof (fp_act_length _ _ _ _ Hp) as Hal.
  destruct (saved_segments ws bs fs (z_values st) (activations st) n Hw Hb Hf Hzl)
    as (Sf & Sz & Sa).
  unfold saved. rewrite Hc. cbn [saved_tensors num_layers].
  rewrite Sf, Sz, Sa.
  split; [done|]. split. { rewrite !length_app. lia. }
  split. { apply (slice_app_here 0 n [] ws); [done | lia]. }
  split. { apply slice_app_here; [done | lia]. }
  split; [done|]. split; [done|]. split; [done|]. split; [done|].
  split; [rewrite Hout; by eapply fp_input|].
  intros i Hi. pose proof (fp_layers _ _ _ _ Hp i Hi) as Hlay.
  by rewrite Hw in Hlay.
Qed.

Lemma broadcast_raises (op : F -> F -> F) (a b : tensor F) (e : exn) :
  broadcast op a b = Raise e -> e = RuntimeError.
Proof.
  unfold broadcast. intros E.
  destruct (bdim (rows (tshape a)) (rows (tshape b))) as [r|e1] eqn:Er; simpl in E.
  - destruct (bdim (cols (tshape a)) (cols (tshape b))) as [c|e2] eqn:Ec; simpl in E.
    + done.
    + simplify_eq. by eapply bdim_raises.
  - simplify_eq. by eapply bdim_raises.
Qed.

(** With lists as long as [forward] saves them, no index of the loop of
    [backward] is out of range: what it can raise is the library's error. *)
Lemma backward_loop_raises fs zs acts (n k : nat) (st : grads F) (e : exn) :
  length fs = n -> length zs = n -> length acts = S n ->
  k <= n ->
  length (grad_weights st) = n -> length (grad_biases st) = n ->
  backward_loop fs zs acts (reverse (seq 0 k)) st = Raise e ->
  e = RuntimeError.
Proof.
  intros Hfl Hzl Hal. revert st.
  induction k as [|k IH]; intros st Hk Hgw Hgb Hloop; [done|].
  rewrite reverse_seq_S in Hloop. simpl in Hloop.
  destruct (backward_body fs zs acts k st) as [st1|e1] eqn:Hbody; simpl in Hloop.
  - apply (IH st1); [lia | | | done].
    + destruct (backward_loop_lengths fs zs acts [k] st st1) as [Hl _];
        [simpl; by rewrite Hbody | by rewrite Hl].
    + destruct (backward_loop_lengths fs zs acts [k] st st1) as [_ Hl];
        [simpl; by rewrite Hbody | by rewrite Hl].
  - simplify_eq. unfold backward_body in Hbody.
    destruct (lookup_lt_is_Some_2 acts k) as [a Ha]; [lia|].
    rewrite (getitem_Some _ _ _ Ha) in Hbody. simpl in Hbody.
    destruct (matmul (t (delta st)) a) as [gw|e1] eqn:Hm; simpl in Hbody;
      [|simplify_eq; by eapply matmul_raises].
    rewrite !setitem_Ok in Hbody by lia. simpl in Hbody.
    case_decide as Hpos; simpl in Hbody; [|done].
    unfold propagate in Hbody.
    destruct (lookup_lt_is_Some_2 fs k) as [f Hf]; [lia|].
    rewrite (getitem_Some _ _ _ Hf) in Hbody. simpl in Hbody.
    destruct (matmul (delta st) f) as [m|e1] eqn:Hm2; simpl in Hbody;
      [|simplify_eq; by eapply matmul_raises].
    destruct (lookup_lt_is_Some_2 zs (k - 1)) as [z Hz]; [lia|].
    rewrite (getitem_Some _ _ _ Hz) in Hbody. simpl in Hbody.
    destruct (mul m (float (gt_zero z))) as [d|e1] eqn:Hmul; simpl in Hbody; [done|].
    simplify_eq. by eapply broadcast_raises.
Qed.

(** X6.  Run on what a [forward] that returned has saved, [backward] never
    fails on an index: whatever [grad_output] is, if it raises, it raises
    the tensor library's RuntimeError. *)
Theorem backward_after_forward_raises_only_RuntimeError (x : tensor F)
  (params : list (tensor F)) (c : ctx F) (out grad_output : tensor F) (e : exn) :
  forward x params = Ok (c, out) ->
  backward c grad_output = Raise e ->
  e = RuntimeError.
Proof.
  intros Hfwd Hback.
  destruct (forward_saved x params c out Hfwd) as (st & Hc & _ & Hp & _).
  destruct (thirds_lengths params) as (Hw & Hb & Hf).
  revert Hc Hp Hw Hb Hf.
  generalize (length params / 3) as n.
  intros n. generalize (slice 0 n params) as ws.
  generalize (slice n (2 * n) params) as bs.
  generalize (slice (2 * n) (3 * n) params) as fs.
  intros fs bs ws Hc Hp Hw Hb Hf.
  pose proof (fp_z_length _ _ _ _ Hp) as Hzl.
  pose proof (fp_act_length _ _ _ _ Hp) as Hal.
  rewrite Hc in Hback. rewrite backward_unfold in Hback by done.
  destruct (backward_loop _ _ _ _ _) as [st1|e1] eqn:Hloop; simpl in Hback; [done|].
  injection Hback as ->.
  eapply (backward_loop_raises fs (z_values st) (activations st) n n);
    [done | done | done | lia | | | exact Hloop];
    simpl; apply length_replicate.
Qed.

End SavedState.

Section Unread.
Context {F : Type} `{Scalar F}.
Import FeedbackAlignmentFunction.

(** X7.  [backward] slices the saved weights and biases out and never reads
    them: replacing any of the first [2 n] saved tensors of an [n]-layer
    context by any other tensor changes nothing of what [backward] returns
    or raises. *)
Theorem backward_ignores_weights_and_biases (saved : list (tensor F)) (n j : nat)
  (y grad_output : tensor F) :
  j < 2 * n ->
  backward (mkCtx (<[j := y]> saved) n) grad_output
  = backward (mkCtx saved n) grad_output.
Proof.
  intros Hj. unfold backward. cbn [saved_tensors num_layers].
  assert (slice (2 * n) (3 * n) (<[j := y]> saved) = slice (2 * n) (3 * n) saved) as ->.
  { unfold slice. by rewrite drop_insert_lt by lia. }
  assert (slice (3 * n) (4 * n) (<[j := y]> saved) = slice (3 * n) (4 * n) saved) as ->.
  { unfold slice. by rewrite drop_insert_lt by lia. }
  by rewrite drop_insert_lt by lia.
Qed.

(** X8.  [forward] saves the feedback matrices and never reads them:
    replacing any parameter from position [2 n] on, with
    [n = len(params) // 3], leaves the loop of [forward], the value returned
    and the exception raised as they were. *)
Theorem forward_ignores_feedback (x : tensor F) (params : list (tensor F)) (j : nat)
  (y : tensor F) :
  2 * (length params / 3) <= j ->
  forward_run x (<[j := y]> params) = forward_run x params
  /\ apply x (<[j := y]> params) = apply x params.
Proof.
  intros Hj.
  assert (forward_run x (<[j := y]> params) = forward_run x params) as Hrun.
  { unfold forward_run. rewrite length_insert.
    set (n := length params / 3) in *.
    assert (slice 0 n (<[j := y]> params) = slice 0 n params) as ->.
    { rewrite !slice_0. apply take_insert_ge. lia. }
    assert (slice n (2 * n) (<[j := y]> params) = slice n (2 * n) params) as ->.
    { unfold slice. rewrite drop_insert_ge by lia. apply take_insert_ge. lia. }
    done. }
  split; [done|].
  unfold apply, forward. rewrite Hrun.
  by destruct (forward_run x params) as [st [e|]].
Qed.

(** X9.  With fewer than three parameters there is no layer: [forward]
    returns its input as it is and saves it alone, and [backward] on that
    context returns the single [None] of the input, without reading
    [grad_output]. *)
Theorem forward_without_layers (x : tensor F) (params : list (tensor F)) :
  length params < 3 ->
  forward x params = Ok (mkCtx [x] 0, x)
  /\ forall grad_output, backward (mkCtx [x] 0) grad_output = Ok [None].
Proof.
  intros Hlen. split; [|done].
  unfold forward, forward_run. rewrite Nat.div_small by done. done.
Qed.

End Unread.

(** ** The shape of [grad_output] *)

Section GradOutput.
Context {F : Type} `{Scalar F}.
Import FeedbackAlignmentFunction.
Implicit Types (ws bs fs zs acts : list (tensor F)).

Lemma t_shape (x : tensor F) (r c : nat) :
  tshape x = Matrix r c -> tshape (t x) = Matrix c r.
Proof. intros Hs. unfold t. by rewrite Hs. Qed.

Lemma matmul_mismatch (a b : tensor F) (n k k' m : nat) :
  tshape a = Matrix n k -> tshape b = Matrix k' m -> k <> k' ->
  matmul a b = Raise RuntimeError.
Proof. intros Ha Hb Hne. unfold matmul. rewrite Ha, Hb. by rewrite decide_False. Qed.

Lemma matmul_shape (a b : tensor F) (n k m : nat) :
  tshape a = Matrix n k -> tshape b = Matrix k m ->
  exists c, matmul a b = Ok c /\ tshape c = Matrix n m.
Proof.
  intros Ha Hb. unfold matmul. rewrite Ha, Hb. rewrite decide_True by done. eauto.
Qed.

(** X10.  [backward] does not compare [grad_output] with the output, but on
    a shape-consistent saved state a [grad_output] that is a matrix of
    another shape is refused by the library in two cases: when its number of
    rows is not the batch size, at the first matrix product; and when its
    number of columns is not the output width and there are at least two
    layers, at the product with the last feedback matrix. *)
Theorem backward_rejects_grad_output (N N' k : nat) (dims : list nat)
  ws bs fs zs acts (grad_output : tensor F) :
  let L := length dims - 1 in
  consistent_saved N dims ws bs fs zs acts ->
  tshape grad_output = Matrix N' k ->
  N' <> N \/ (k <> dim dims L /\ 2 <= L) ->
  backward (mkCtx (ws ++ bs ++ fs ++ zs ++ acts) L) grad_output = Raise RuntimeError.
Proof.
  intros L [[HL [Hwl _] [Hbl _] Hfs] [Hzl _] Hacts] Hgo Hbad.
  fold L in Hwl, Hbl, Hfs, Hzl.
  rewrite backward_unfold by (done || apply Hfs).
  destruct L as [|L'] eqn:EL; [lia|].
  rewrite reverse_seq_S. cbn [backward_loop].
  destruct (layered_lookup _ _ _ L' Hacts) as (a & Ha & [Hsa _]); [lia|].
  unfold backward_body. rewrite (getitem_Some _ _ _ Ha). cbn [bind delta].
  pose proof (t_shape _ _ _ Hgo) as Ht.
  destruct (decide (N' = N)) as [->|Hrows].
  - destruct Hbad as [Hbad|[Hk H2]]; [done|].
    destruct (matmul_shape _ _ _ _ _ Ht Hsa) as (gw & Hgw & _).
    rewrite Hgw. cbn [bind grad_weights grad_biases].
    rewrite !setitem_Ok by (rewrite length_replicate; lia). cbn [bind].
    rewrite decide_True by lia.
    destruct (layered_lookup _ _ _ L' Hfs) as (f & Hf & [Hsf _]); [lia|].
    unfold propagate. rewrite (getitem_Some _ _ _ Hf). cbn [bind].
    rewrite (matmul_mismatch _ _ _ _ _ _ Hgo Hsf Hk). done.
  - rewrite (matmul_mismatch _ _ _ _ _ _ Ht Hsa Hrows). done.
Qed.

(** X11.  With a single layer nothing compares the width of [grad_output]
    with the width of the output: for a [grad_output] of [N] rows and any
    number [k] of columns [backward] returns, and the gradient it returns
    for the weight has [k] rows and the one for the bias [k] entries,
    whatever the shape of the weight and the bias. *)
Theorem single_layer_accepts_any_width (N inp out k : nat)
  (w b f z0 a0 a1 grad_output : tensor F) :
  consistent_saved N [inp; out] [w] [b] [f] [z0] [a0; a1] ->
  tshape grad_output = Matrix N k ->
  exists gw gb,
    backward (mkCtx ([w] ++ [b] ++ [f] ++ [z0] ++ [a0; a1]) 1) grad_output
    = Ok [None; Some gw; Some gb; None]
    /\ tshape gw = Matrix k inp
    /\ tshape gb = Vector k.
Proof.
  intros [_ _ [_ Hacts]] Hgo.
  destruct (Hacts 0 a0 eq_refl) as [Ha _]. unfold batch_shape, dim in Ha. simpl in Ha.
  destruct (matmul_shape _ _ _ _ _ (t_shape _ _ _ Hgo) Ha) as (gw & Hgw & Hsgw).
  exists gw, (sum0 grad_output).
  split; [|split; [done|]].
  - rewrite backward_unfold by done.
    change (reverse (seq 0 1)) with [0]. simpl backward_loop.
    unfold backward_body.
    change (getitem [a0; a1] 0) with (Ok a0). cbn [bind delta].
    rewrite Hgw. reflexivity.
  - unfold sum0. by rewrite Hgo.
Qed.

(** X12.  At every depth the gradients of the last layer are those of
    standard backpropagation: on a shape-consistent saved state the entry
    returned for the last weight is, entry for entry, the sum over the batch
    of [grad_output[n][j] * a[n][k]] with [a] the activation that entered
    the last layer, and the entry returned for the last bias is the sum over
    the batch of [grad_output[n][j]]. *)
Theorem last_layer_is_backprop (N : nat) (dims : list nat) ws bs fs zs acts
  (grad_output : tensor F) :
  let L := length dims - 1 in
  consistent_saved N dims ws bs fs zs acts ->
  has_shape grad_output (Matrix N (dim dims L)) ->
  exists gs a,
    backward (mkCtx (ws ++ bs ++ fs ++ zs ++ acts) L) grad_output = Ok gs
    /\ acts !! (L - 1) = Some a
    /\ gs !! L
       = Some (Some (backprop_grad_W N (dim dims L) (dim dims (L - 1)) grad_output a))
    /\ gs !! (2 * L) = Some (Some (backprop_grad_b N (dim dims L) grad_output)).
Proof.
  intros L Hcons Hgo.
  destruct (backward_consistent N dims ws bs fs zs acts grad_output Hcons Hgo)
    as (st & ds & Hback & Hpost).
  fold L in Hback, Hpost.
  pose proof Hcons as [[HL _ _ _] _ [_ Hacts]].
  assert (1 <= L) as HL1 by (unfold L; lia).
  assert (length (grad_weights st) = L) as Hgwl.
  { rewrite (bp_gw_length _ _ _ _ _ _ _ _ _ Hpost). simpl. apply length_replicate. }
  assert (length (grad_biases st) = L) as Hgbl.
  { rewrite (bp_gb_length _ _ _ _ _ _ _ _ _ Hpost). simpl. apply length_replicate. }
  destruct (bp_layers _ _ _ _ _ _ _ _ _ Hpost (L - 1) ltac:(lia))
    as (d & a & gw & Hd & Ha & Hgw & Hgwi & Hgbi).
  rewrite (bp_top _ _ _ _ _ _ _ _ _ Hpost ltac:(lia)) in Hd. simpl in Hd.
  injection Hd as <-.
  destruct (Hacts (L - 1) a Ha) as [Hsa _]. unfold batch_shape in Hsa.
  destruct Hgo as [Hsg _].
  rewrite (matmul_t_backprop N (dim dims L) (dim dims (L - 1)) grad_output a Hsg Hsa)
    in Hgw.
  injection Hgw as <-.
  rewrite (sum0_backprop N (dim dims L) grad_output Hsg) in Hgbi.
  eexists _, a. split; [exact Hback|]. split; [done|]. split.
  - replace L with (S (L - 1)) at 1 by lia. simpl.
    by apply lookup_app_l_Some.
  - replace (2 * L) with (S (L + (L - 1))) by lia. simpl.
    rewrite lookup_app_r by lia.
    replace (L + (L - 1) - length (grad_weights st)) with (L - 1) by lia.
    by apply lookup_app_l_Some.
Qed.

End GradOutput.

(** ** Units the gate switches off *)

Section DeadUnits.
Context {F : Type} `{Scalar F}.
Import FeedbackAlignmentFunction.
Implicit Types (ws bs fs zs acts : list (tensor F)).




End DeadUnits.

(** ** [reset_parameters] on a model as built *)

Section ResetBuilt.
Context {F G : Type} `{Scalar F} `{Init F G}.
Import FeedbackAlignmentMLP.

(** X14.  On a model whose parameters are shape-consistent for widths
    [dims], [reset_parameters] returns without an exception; afterwards the
    parameters are shape-consistent for the same widths, every flag
    [requires_grad] is as before, every bias holds zeros only, and the
    feedback matrices are the tensors they were. *)
Theorem reset_parameters_on_built (dims : list nat) (s : self F) (g : G) :
  built dims s ->
  exists s' g',
    reset_parameters s g = (s', g', None)
    /\ built dims s'
    /\ Forall2 (fun w w' => requires_grad w' = requires_grad w) (weights s) (weights s')
    /\ Forall2 (fun b b' => requires_grad b' = requires_grad b) (biases s) (biases s')
    /\ Forall (fun b => tdata (data b) = replicate (numel (tshape (data b))) fzero)
         (biases s')
    /\ feedback_matrices s' = feedback_matrices s.
Proof.
  intros Hb.
  destruct (reset_parameters_built dims s g Hb) as (s' & g' & Hr & Hb').
  exists s', g'. split; [done|]. split; [done|].
  destruct (reset_parameters_flags _ _ _ _ _ Hr) as [Hfw Hfb].
  split; [done|]. split; [done|].
  split; [by eapply reset_parameters_zero_biases|].
  pose proof (reset_parameters_feedback s g) as Hf. by rewrite Hr in Hf.
Qed.

End ResetBuilt.

(** ** How many entries [backward] returns *)

Section Arity.
Context {F : Type} `{Scalar F}.
Import FeedbackAlignmentFunction.
Implicit Types (ws bs fs zs acts : list (tensor F)).

(** X15.  After a [forward] on [params], a [backward] that returns returns
    [1 + 3 (len(params) // 3)] entries: one for the input and one for each
    parameter [forward] used.  That is one entry for each argument of
    [forward] exactly when [len(params)] is a multiple of three. *)
Theorem backward_arity (x : tensor F) (params : list (tensor F)) (c : ctx F)
  (out grad_output : tensor F) (gs : list (option (tensor F))) :
  forward x params = Ok (c, out) ->
  backward c grad_output = Ok gs ->
  length gs = 1 + 3 * (length params / 3)
  /\ (length gs = 1 + length params <-> length params mod 3 = 0).
Proof.
  intros Hfwd Hback.
  destruct (forward_saved x params c out Hfwd) as (st & Hc & _ & Hp & _).
  destruct (thirds_lengths params) as (Hw & Hb & Hf).
  pose proof (Nat.div_mod_eq (length params) 3) as Hdm.
  pose proof (fp_z_length _ _ _ _ Hp) as Hzl.
  destruct (backward_feedback_None c grad_output gs Hback) as (Hlen & _ & _).
  rewrite Hc in Hlen. cbn [saved_tensors num_layers] in Hlen.
  destruct (saved_segments _ _ _ (z_values st) (activations st) _ Hw Hb Hf Hzl)
    as (Sf & _ & _).
  rewrite Sf, Hf in Hlen.
  split; [lia|]. rewrite Hlen. lia.
Qed.

End Arity.

(** ** An input without a batch dimension *)

Section Unbatched.
Context {F : Type} `{Scalar F}.
Import FeedbackAlignmentFunction.
Implicit Types (ws bs fs zs acts : list (tensor F)) (st : locals F).

Lemma forward_on_thirds ws bs fs (n : nat) (x : tensor F) :
  length ws = n -> length bs = n -> length fs = n ->
  forward x (ws ++ bs ++ fs)
  = match forward_loop ws bs (seq 0 n)
            {| input := x; z_values := []; activations := [x] |} with
    | (st, None) =>
        Ok (mkCtx (ws ++ bs ++ fs ++ z_values st ++ activations st) n, input st)
    | (_, Some e) => Raise e
    end.
Proof.
  intros Hw Hb Hf.
  destruct (params_thirds ws bs fs n Hw Hb Hf) as (Hdiv & Sw & Sb & Sf).
  unfold forward, forward_run. by rewrite Hdiv, Sw, Sb, Sf, Hw.
Qed.

Lemma vector_layer (a w b : tensor F) (k m : nat) :
  tshape a = Vector k -> tshape w = Matrix m k -> tshape b = Vector m ->
  exists p z, matmul a (t w) = Ok p /\ add p b = Ok z /\ tshape z = Vector m.
Proof.
  intros Ha Hw Hb.
  assert (tshape (t w) = Matrix k m) as Ht by (unfold t; by rewrite Hw).
  unfold matmul. rewrite Ha, Ht. rewrite decide_True by done.
  eexists _, _. split; [done|].
  unfold add, broadcast. simpl. rewrite Hb. simpl. rewrite !bdim_same. simpl.
  by split.
Qed.

Lemma forward_loop_vectors (dims : list nat) ws bs (r k : nat) st :
  1 <= length dims ->
  layered (weight_shape dims) (length dims - 1) ws ->
  layered (bias_shape dims) (length dims - 1) bs ->
  k + r = length dims - 1 ->
  length (z_values st) = k -> length (activations st) = S k ->
  activations st !! k = Some (input st) ->
  (forall i a, activations st !! i = Some a -> tshape a = Vector (dim dims i)) ->
  exists st',
    forward_loop ws bs (seq k r) st = (st', None)
    /\ length (z_values st') = length dims - 1
    /\ length (activations st') = length dims
    /\ activations st' !! (length dims - 1) = Some (input st')
    /\ forall i a, activations st' !! i = Some a -> tshape a = Vector (dim dims i).
Proof.
  intros Hdims Hws Hbs. revert k st.
  induction r as [|r IH]; intros k st Hkr Hzl Hal Hin Hsh.
  - simpl. exists st. split; [done|]. split; [lia|]. split; [lia|].
    split; [|done]. by replace (length dims - 1) with k by lia.
  - simpl.
    destruct (layered_lookup _ _ _ k Hws) as (w & Hw & [Hsw _]); [lia|].
    destruct (layered_lookup _ _ _ k Hbs) as (b & Hb & [Hsb _]); [lia|].
    destruct (vector_layer (input st) w b (dim dims k) (dim dims (S k)))
      as (p & z & Hp & Hz & Hsz); [by apply Hsh | done | done |].
    unfold forward_body, affine.
    rewrite (getitem_Some _ _ _ Hw). simpl. rewrite Hp. simpl.
    rewrite (getitem_Some _ _ _ Hb). simpl. rewrite Hz. simpl.
    apply IH; simpl.
    + lia.
    + rewrite length_app. simpl. lia.
    + rewrite length_app. simpl. lia.
    + rewrite lookup_app_r by lia. by rewrite Hal, Nat.sub_diag.
    + intros i a Ha. apply lookup_app_Some in Ha as [Ha | [Hge Ha]].
      * by apply Hsh.
      * apply list_lookup_singleton_Some in Ha as [Hi <-].
        replace i with (S k) by lia. by case_decide.
Qed.

(** X16.  An input without a batch dimension goes through [forward] and
    not through [backward].  On shape-consistent parameters a vector of
    [input_size] entries gives a vector of [output_size] entries; but when
    the last two widths differ, [backward] on what was saved, with a
    [grad_output] shaped like that output, raises the library's
    RuntimeError. *)
Theorem unbatched_input (dims : list nat) ws bs fs (x grad_output : tensor F) :
  let L := length dims - 1 in
  consistent_params dims ws bs fs ->
  tshape x = Vector (dim dims 0) ->
  exists c out,
    forward x (ws ++ bs ++ fs) = Ok (c, out)
    /\ tshape out = Vector (dim dims L)
    /\ (tshape grad_output = Vector (dim dims L) ->
        dim dims L <> dim dims (L - 1) ->
        backward c grad_output = Raise RuntimeError).
Proof.
  intros L [HL Hws Hbs Hfs] Hx.
  destruct (forward_loop_vectors dims ws bs L 0
              {| input := x; z_values := []; activations := [x] |})
    as (st & Hloop & Hzl & Hal & Hin & Hsh); simpl; try done; [lia| |].
  { intros [|i] a Ha; simpl in Ha; [|done]. by simplify_eq. }
  fold L in Hloop, Hzl, Hin.
  pose proof Hws as [Hwl _]. pose proof Hbs as [Hbl _]. pose proof Hfs as [Hfl _].
  fold L in Hwl, Hbl, Hfl.
  rewrite (forward_on_thirds ws bs fs L x Hwl Hbl Hfl), Hloop.
  eexists _, _. split; [done|]. split; [by apply (Hsh L)|].
  intros Hgo Hne.
  rewrite backward_unfold by done.
  assert (L = S (L - 1)) as EL by (unfold L; lia).
  rewrite EL at 1. rewrite reverse_seq_S. cbn [backward_loop].
  destruct (lookup_lt_is_Some_2 (activations st) (L - 1)) as [a Ha]; [lia|].
  pose proof (Hsh _ _ Ha) as Hsa.
  unfold backward_body. rewrite (getitem_Some _ _ _ Ha). cbn [bind delta].
  assert (matmul (t grad_output) a = Raise RuntimeError) as ->; [|done].
  unfold t. rewrite Hgo. unfold matmul. rewrite Hgo, Hsa.
  by rewrite decide_False.
Qed.

End Unbatched.

(** ** The further properties on the small network *)

(** X1 at sizes 2, [2] and 1. *)
Lemma construction_builds_layers_witness :
  [2] <> ([] : list nat)
  /\ exists s g',
       FeedbackAlignmentMLP.new (F := Z) 2 [2] 1 0 = Ok (s, g')
       /\ length (FeedbackAlignmentMLP.weights s) = 2
       /\ length (FeedbackAlignmentMLP.feedback_matrices s) = 2.
Proof.
  assert ([2] <> ([] : list nat)) as Hne by discriminate.
  split; [exact Hne|].
  destruct (construction_builds_layers (F := Z) 2 [2] 1 0 Hne)
    as (s & g' & H1 & H2 & _ & H3 & _).
  exists s, g'. split; [exact H1|]. split; [exact H2 | exact H3].
Defined.

(** X2 at sizes 2, [2] and 1. *)
Lemma construction_flags_and_biases_witness :
  exists s g',
    FeedbackAlignmentMLP.new (F := Z) 2 [2] 1 0 = Ok (s, g')
    /\ Forall (fun w => FeedbackAlignmentMLP.requires_grad w = true)
         (FeedbackAlignmentMLP.weights s)
    /\ Forall (fun f => FeedbackAlignmentMLP.requires_grad f = false)
         (FeedbackAlignmentMLP.feedback_matrices s).
Proof.
  destruct (FeedbackAlignmentMLP.new (F := Z) 2 [2] 1 0) as [[s g1]|e] eqn:Hnew;
    [|vm_compute in Hnew; discriminate].
  exists s, g1. split; [reflexivity|].
  destruct (construction_flags_and_biases _ _ _ _ _ _ Hnew) as (Hw & _ & Hf).
  split; [exact Hw | exact Hf].
Defined.

(** X3 at the small network. *)
Lemma forward_then_backward_witness :
  consistent_params Sample.dims Sample.ws Sample.bs Sample.fs
  /\ has_shape Sample.x (Matrix 1 2)
  /\ has_shape Sample.grad_output (Matrix 1 1)
  /\ exists c out gs,
       FeedbackAlignmentFunction.forward Sample.x (Sample.ws ++ Sample.bs ++ Sample.fs)
       = Ok (c, out)
       /\ FeedbackAlignmentFunction.backward c Sample.grad_output = Ok gs
       /\ length gs = 7.
Proof.
  assert (consistent_params Sample.dims Sample.ws Sample.bs Sample.fs) as Hc
    by (apply consistent_paramsb_sound; reflexivity).
  assert (has_shape Sample.x (Matrix 1 2)) as Hx
    by (apply has_shapeb_sound; reflexivity).
  assert (has_shape Sample.grad_output (Matrix 1 1)) as Hg
    by (apply has_shapeb_sound; reflexivity).
  split; [exact Hc|]. split; [exact Hx|]. split; [exact Hg|].
  destruct (forward_then_backward 1 Sample.dims Sample.ws Sample.bs Sample.fs
              Sample.x Sample.grad_output Hc Hx Hg)
    as (c & out & gs & H1 & _ & H2 & H3 & _).
  exists c, out, gs. split; [exact H1|]. split; [exact H2 | exact H3].
Defined.

(** X4 at sizes 2, [2] and 1 and a batch of one row. *)
Lemma constructed_model_runs_witness :
  [2] <> ([] : list nat)
  /\ has_shape Sample.x (Matrix 1 2)
  /\ has_shape Sample.grad_output (Matrix 1 1)
  /\ exists s g' out,
       FeedbackAlignmentMLP.new (F := Z) 2 [2] 1 0 = Ok (s, g')
       /\ FeedbackAlignmentMLP.forward s Sample.x = Ok out
       /\ has_shape out (Matrix 1 1).
Proof.
  assert ([2] <> ([] : list nat)) as Hne by discriminate.
  assert (has_shape Sample.x (Matrix 1 2)) as Hx
    by (apply has_shapeb_sound; reflexivity).
  assert (has_shape Sample.grad_output (Matrix 1 1)) as Hg
    by (apply has_shapeb_sound; reflexivity).
  split; [exact Hne|]. split; [exact Hx|]. split; [exact Hg|].
  destruct (constructed_model_runs (F := Z) 1 2 [2] 1 0 Sample.x Sample.grad_output
              Hne Hx Hg)
    as (s & g' & c & out & gs & H1 & H2 & H3 & _).
  exists s, g', out. split; [exact H1|]. split; [exact H2 | exact H3].
Defined.

(** X5 at the small network. *)
Lemma saved_state_round_trip_witness :
  let c := FeedbackAlignmentFunction.mkCtx
             (Sample.ws ++ Sample.bs ++ Sample.fs ++ Sample.zs ++ Sample.acts) 2 in
  let out := ztensor (Matrix 1 1) [8]%Z in
  FeedbackAlignmentFunction.forward Sample.x (Sample.ws ++ Sample.bs ++ Sample.fs)
  = Ok (c, out)
  /\ length (FeedbackAlignmentFunction.saved_tensors c) = 11
  /\ drop 8 (FeedbackAlignmentFunction.saved_tensors c) !! 2 = Some out.
Proof.
  intros c out.
  assert (FeedbackAlignmentFunction.forward Sample.x
            (Sample.ws ++ Sample.bs ++ Sample.fs) = Ok (c, out)) as Hf
    by reflexivity.
  split; [exact Hf|].
  destruct (saved_state_round_trip Sample.x (Sample.ws ++ Sample.bs ++ Sample.fs)
              c out Hf)
    as (_ & H1 & _ & _ & _ & _ & _ & _ & H2 & _).
  split; [exact H1 | exact H2].
Defined.

(** X6 at the small network, with a [grad_output] of two rows. *)
Lemma backward_after_forward_raises_only_RuntimeError_witness :
  let c := FeedbackAlignmentFunction.mkCtx
             (Sample.ws ++ Sample.bs ++ Sample.fs ++ Sample.zs ++ Sample.acts) 2 in
  exists e,
    FeedbackAlignmentFunction.forward Sample.x (Sample.ws ++ Sample.bs ++ Sample.fs)
    = Ok (c, ztensor (Matrix 1 1) [8]%Z)
    /\ FeedbackAlignmentFunction.backward c (ztensor (Matrix 2 1) [1; 1]%Z) = Raise e
    /\ e = RuntimeError.
Proof.
  intros c.
  assert (FeedbackAlignmentFunction.forward Sample.x
            (Sample.ws ++ Sample.bs ++ Sample.fs)
          = Ok (c, ztensor (Matrix 1 1) [8]%Z)) as Hf by reflexivity.
  destruct (FeedbackAlignmentFunction.backward c (ztensor (Matrix 2 1) [1; 1]%Z))
    as [gs|e] eqn:Hb; [vm_compute in Hb; discriminate|].
  exists e. split; [exact Hf|]. split; [reflexivity|].
  exact (backward_after_forward_raises_only_RuntimeError _ _ _ _ _ _ Hf Hb).
Defined.

(** X7 at the small network: the first bias replaced. *)
Lemma backward_ignores_weights_and_biases_witness :
  let saved := Sample.ws ++ Sample.bs ++ Sample.fs ++ Sample.zs ++ Sample.acts in
  2 < 2 * 2
  /\ FeedbackAlignmentFunction.backward
       (FeedbackAlignmentFunction.mkCtx (<[2 := Sample.x]> saved) 2) Sample.grad_output
     = FeedbackAlignmentFunction.backward
         (FeedbackAlignmentFunction.mkCtx saved 2) Sample.grad_output.
Proof.
  intros saved. assert (2 < 2 * 2) as Hj by lia.
  split; [exact Hj|].
  exact (backward_ignores_weights_and_biases saved 2 2 Sample.x Sample.grad_output Hj).
Defined.

(** X8 at the small network: the last feedback matrix replaced. *)
Lemma forward_ignores_feedback_witness :
  let params := Sample.ws ++ Sample.bs ++ Sample.fs in
  2 * (length params / 3) <= 5
  /\ FeedbackAlignmentFunction.apply Sample.x (<[5 := Sample.x]> params)
     = FeedbackAlignmentFunction.apply Sample.x params.
Proof.
  intros params. assert (2 * (length params / 3) <= 5) as Hj by (vm_compute; lia).
  split; [exact Hj|].
  exact (proj2 (forward_ignores_feedback Sample.x params 5 Sample.x Hj)).
Defined.

(** X9 with two parameters. *)
Lemma forward_without_layers_witness :
  length Sample.ws < 3
  /\ FeedbackAlignmentFunction.forward Sample.x Sample.ws
     = Ok (FeedbackAlignmentFunction.mkCtx [Sample.x] 0, Sample.x).
Proof.
  assert (length Sample.ws < 3) as Hl by (vm_compute; lia).
  split; [exact Hl|].
  exact (proj1 (forward_without_layers Sample.x Sample.ws Hl)).
Defined.

(** X10 at the small network, with a [grad_output] of two rows. *)
Lemma backward_rejects_grad_output_witness :
  let bad := ztensor (Matrix 2 1) [1; 1]%Z in
  consistent_saved 1 Sample.dims Sample.ws Sample.bs Sample.fs Sample.zs Sample.acts
  /\ tshape bad = Matrix 2 1
  /\ (2 <> 1 \/ (1 <> dim Sample.dims 2 /\ 2 <= 2))
  /\ FeedbackAlignmentFunction.backward
       (FeedbackAlignmentFunction.mkCtx
          (Sample.ws ++ Sample.bs ++ Sample.fs ++ Sample.zs ++ Sample.acts) 2) bad
     = Raise RuntimeError.
Proof.
  intros bad.
  assert (consistent_saved 1 Sample.dims Sample.ws Sample.bs Sample.fs Sample.zs
            Sample.acts) as Hc
    by (apply consistent_savedb_sound; reflexivity).
  assert (2 <> 1 \/ (1 <> dim Sample.dims 2 /\ 2 <= 2)) as Hbad by (left; lia).
  split; [exact Hc|]. split; [reflexivity|]. split; [exact Hbad|].
  exact (backward_rejects_grad_output 1 2 1 Sample.dims Sample.ws Sample.bs Sample.fs
           Sample.zs Sample.acts bad Hc eq_refl Hbad).
Defined.

(** X11 at a layer with two outputs and a [grad_output] of three columns. *)
Lemma single_layer_accepts_any_width_witness :
  let w := ztensor (Matrix 2 2) [1; 0; 0; -1]%Z in
  let b := ztensor (Vector 2) [0; 2]%Z in
  let f := ztensor (Matrix 2 2) [7; 7; 7; 7]%Z in
  let z := ztensor (Matrix 1 2) [1; 0]%Z in
  let g := ztensor (Matrix 1 3) [3; 5; 7]%Z in
  consistent_saved 1 [2; 2] [w] [b] [f] [z] [Sample.x; z]
  /\ tshape g = Matrix 1 3
  /\ exists gw gb,
       FeedbackAlignmentFunction.backward
         (FeedbackAlignmentFunction.mkCtx ([w] ++ [b] ++ [f] ++ [z] ++ [Sample.x; z]) 1) g
       = Ok [None; Some gw; Some gb; None]
       /\ tshape gw = Matrix 3 2.
Proof.
  intros w b f z g.
  assert (consistent_saved 1 [2; 2] [w] [b] [f] [z] [Sample.x; z]) as Hc
    by (apply consistent_savedb_sound; reflexivity).
  split; [exact Hc|]. split; [reflexivity|].
  destruct (single_layer_accepts_any_width 1 2 2 3 w b f z Sample.x z g Hc eq_refl)
    as (gw & gb & H1 & H2 & _).
  exists gw, gb. split; [exact H1 | exact H2].
Defined.

(** X12 at the small network. *)
Lemma last_layer_is_backprop_witness :
  consistent_saved 1 Sample.dims Sample.ws Sample.bs Sample.fs Sample.zs Sample.acts
  /\ has_shape Sample.grad_output (Matrix 1 1)
  /\ exists gs,
       FeedbackAlignmentFunction.backward
         (FeedbackAlignmentFunction.mkCtx
            (Sample.ws ++ Sample.bs ++ Sample.fs ++ Sample.zs ++ Sample.acts) 2)
         Sample.grad_output
       = Ok gs
       /\ gs !! 4 = Some (Some (backprop_grad_b 1 1 Sample.grad_output)).
Proof.
  assert (consistent_saved 1 Sample.dims Sample.ws Sample.bs Sample.fs Sample.zs
            Sample.acts) as Hc
    by (apply consistent_savedb_sound; reflexivity).
  assert (has_shape Sample.grad_output (Matrix 1 1)) as Hg
    by (apply has_shapeb_sound; reflexivity).
  split; [exact Hc|]. split; [exact Hg|].
  destruct (last_layer_is_backprop 1 Sample.dims Sample.ws Sample.bs Sample.fs
              Sample.zs Sample.acts Sample.grad_output Hc Hg)
    as (gs & a & H1 & _ & _ & H2).
  exists gs. split; [exact H1 | exact H2].
Defined.


(** X14 at a model holding the tensors of the small network. *)
Lemma reset_parameters_on_built_witness :
  let p := fun x => FeedbackAlignmentMLP.mkParameter x true in
  let q := fun x => FeedbackAlignmentMLP.mkParameter x false in
  let s := FeedbackAlignmentMLP.mkSelf (map p Sample.ws) (map p Sample.bs)
             (map q Sample.fs) in
  built Sample.dims s
  /\ exists s' g',
       FeedbackAlignmentMLP.reset_parameters s 0 = (s', g', None)
       /\ FeedbackAlignmentMLP.feedback_matrices s' = map q Sample.fs.
Proof.
  intros p q s.
  assert (built Sample.dims s) as Hb.
  { split; [|split]; apply layeredb_sound; reflexivity. }
  split; [exact Hb|].
  destruct (reset_parameters_on_built (F := Z) Sample.dims s 0 Hb)
    as (s' & g' & H1 & _ & _ & _ & _ & H2).
  exists s', g'. split; [exact H1 | exact H2].
Defined.

(** X15 at the small network. *)
Lemma backward_arity_witness :
  let c := FeedbackAlignmentFunction.mkCtx
             (Sample.ws ++ Sample.bs ++ Sample.fs ++ Sample.zs ++ Sample.acts) 2 in
  exists gs,
    FeedbackAlignmentFunction.forward Sample.x (Sample.ws ++ Sample.bs ++ Sample.fs)
    = Ok (c, ztensor (Matrix 1 1) [8]%Z)
    /\ FeedbackAlignmentFunction.backward c Sample.grad_output = Ok gs
    /\ length gs = 7.
Proof.
  intros c.
  assert (FeedbackAlignmentFunction.forward Sample.x
            (Sample.ws ++ Sample.bs ++ Sample.fs)
          = Ok (c, ztensor (Matrix 1 1) [8]%Z)) as Hf by reflexivity.
  destruct (FeedbackAlignmentFunction.backward c Sample.grad_output)
    as [gs|e] eqn:Hb; [|vm_compute in Hb; discriminate].
  exists gs. split; [exact Hf|]. split; [reflexivity|].
  exact (proj1 (backward_arity _ _ _ _ _ _ Hf Hb)).
Defined.

(** X16 at the small network, with a vector of two entries as input. *)
Lemma unbatched_input_witness :
  let x := ztensor (Vector 2) [1; 2]%Z in
  let g := ztensor (Vector 1) [1]%Z in
  consistent_params Sample.dims Sample.ws Sample.bs Sample.fs
  /\ tshape x = Vector 2
  /\ exists c out,
       FeedbackAlignmentFunction.forward x (Sample.ws ++ Sample.bs ++ Sample.fs)
       = Ok (c, out)
       /\ tshape out = Vector 1
       /\ FeedbackAlignmentFunction.backward c g = Raise RuntimeError.
Proof.
  intros x g.
  assert (consistent_params Sample.dims Sample.ws Sample.bs Sample.fs) as Hc
    by (apply consistent_paramsb_sound; reflexivity).
  split; [exact Hc|]. split; [reflexivity|].
  destruct (unbatched_input Sample.dims Sample.ws Sample.bs Sample.fs x g Hc eq_refl)
    as (c & out & H1 & H2 & H3).
  exists c, out. split; [exact H1|]. split; [exact H2|].
  apply H3; [reflexivity | vm_compute; lia].
Defined.
